(** * Work-timer MCP server (src/index.js): a shallow embedding

    The server keeps one process-wide object [timers] (label -> timer
    record) and registers seven tool handlers on it.  This file embeds the
    helper [formatElapsed], the JavaScript object that serves as the map
    (own properties in creation order, inherited members of
    [Object.prototype], the key order of [Object.keys]) and the seven
    handlers, and proves the properties the specification states about
    them. *)

From Stdlib Require Import ZArith NArith Arith Lia List String Ascii Bool.
From Stdlib Require Import DecimalString Permutation Sorted.
From Stdlib Require DecimalPos DecimalZ.
Import ListNotations.
Local Open Scope string_scope.
Local Open Scope Z_scope.

(** ** JavaScript values used by the handlers *)

Module Js.

(** Numbers.  Every number the handlers compute is an integer number of
    milliseconds or seconds, or [NaN] (a date minus [undefined]).  The
    integers are differences of two dates, below 2^53 in magnitude, and
    the divisors are 1000, 3600 and 60: the exact quotient [z / d] is an
    integer or at least [1/d] away from one, which is more than half an
    ulp of a double of that size, so rounding the division never reaches
    an integer and [Math.floor(z / d)] is the floor of the exact quotient,
    [Z.div]. *)
Inductive num : Type :=
| Num (z : Z)
| NaN.

(** [Math.floor(a / d)] for a positive integer literal [d]. *)
Definition floor_div (a : num) (d : Z) : num :=
  match a with
  | Num z => Num (z / d)
  | NaN => NaN
  end.

(** [a % d]: the remainder takes the sign of the dividend ([Z.rem]); the
    negative zero JavaScript produces for a negative multiple prints as
    ["0"], like the [0] of [Z]. *)
Definition rem (a : num) (d : Z) : num :=
  match a with
  | Num z => Num (Z.rem z d)
  | NaN => NaN
  end.

(** [a > 0]: any comparison with [NaN] is false. *)
Definition gt0 (a : num) : bool :=
  match a with
  | Num z => 0 <? z
  | NaN => false
  end.

(** The decimal rendering of an integer, as a template literal prints it. *)
Definition string_of_Z (z : Z) : string := NilZero.string_of_int (Z.to_int z).

(** [`${a}`]. *)
Definition to_string (a : num) : string :=
  match a with
  | Num z => string_of_Z z
  | NaN => "NaN"
  end.

(** [parts.push(x)]. *)
Definition push (parts : list string) (x : string) : list string :=
  (parts ++ [x])%list.

(** [parts.join(sep)]. *)
Definition join (sep : string) (parts : list string) : string :=
  String.concat sep parts.

End Js.

(** ** formatElapsed (src/index.js, lines 15-26) *)

Definition formatElapsed (ms : Js.num) : string :=
  let totalSeconds := Js.floor_div ms 1000 in
  let hours := Js.floor_div totalSeconds 3600 in
  let minutes := Js.floor_div (Js.rem totalSeconds 3600) 60 in
  let seconds := Js.rem totalSeconds 60 in
  let parts := [] in
  let parts := if Js.gt0 hours then Js.push parts (Js.to_string hours ++ "h") else parts in
  let parts := if Js.gt0 minutes then Js.push parts (Js.to_string minutes ++ "m") else parts in
  let parts := Js.push parts (Js.to_string seconds ++ "s") in
  Js.join " " parts.

(** ** The object [timers] (src/index.js, line 11)

    [const timers = {}] is an ordinary object used as a map.  Three facts
    of the language shape what the handlers observe:
    - a property read [timers[k]] that finds no own property goes on to
      [Object.prototype], so it is not [undefined] for the names defined
      there;
    - [Object.keys] lists own keys that are array indices first, in
      ascending numeric order, and the other keys after them in the order
      in which they were created;
    - a stored value is a timer record [{ startTime: Date }], or, once a
      handler has copied what a read returned, a member of
      [Object.prototype], which has no [startTime]. *)

Module Obj.

Inductive value : Type :=
| Timer (startTime : Z)        (* { startTime: <Date, ms since the epoch> } *)
| Inherited (name : string).   (* Object.prototype[name] *)

(** Own properties, oldest first. *)
Definition object : Type := list (string * value).

(** The property names of [Object.prototype].  Every one of them holds a
    function, except [__proto__], which reads as [Object.prototype]
    itself: all are truthy and none has a [startTime] property. *)
Definition prototype_names : list string :=
  [ "constructor"; "__defineGetter__"; "__defineSetter__"; "hasOwnProperty";
    "__lookupGetter__"; "__lookupSetter__"; "isPrototypeOf";
    "propertyIsEnumerable"; "toString"; "valueOf"; "__proto__";
    "toLocaleString" ].

Definition inherited (k : string) : bool :=
  existsb (String.eqb k) prototype_names.

Fixpoint own (o : object) (k : string) : option value :=
  match o with
  | [] => None
  | (k', v) :: o' => if String.eqb k' k then Some v else own o' k
  end.

(** [o[k]]; [None] is [undefined]. *)
Definition get (o : object) (k : string) : option value :=
  match own o k with
  | Some v => Some v
  | None => if inherited k then Some (Inherited k) else None
  end.

(** [o[k] = v]: an existing own property keeps its place, a new one is
    created last.  (The handlers assign only where the read [o[k]] was
    falsy, hence never at an inherited name, where [__proto__] would act
    as a setter.) *)
Fixpoint set (o : object) (k : string) (v : value) : object :=
  match o with
  | [] => [(k, v)]
  | (k', v') :: o' =>
      if String.eqb k' k then (k', v) :: o' else (k', v') :: set o' k v
  end.

(** [delete o[k]]. *)
Definition delete (o : object) (k : string) : object :=
  filter (fun kv => negb (String.eqb (fst kv) k)) o.

(** [v.startTime] for a value [v]; [None] is [undefined]. *)
Definition startTime_of (v : value) : option Z :=
  match v with
  | Timer t => Some t
  | Inherited _ => None
  end.

(** Any stored or inherited value is an object or a function: truthy;
    [undefined] is falsy. *)
Definition truthy (v : option value) : bool :=
  match v with
  | Some _ => true
  | None => false
  end.

(** *** Key order of [Object.keys] *)

Definition digit (c : ascii) : option N :=
  let n := N_of_ascii c in
  if ((48 <=? n) && (n <=? 57))%N then Some (n - 48)%N else None.

Fixpoint digits (s : string) (acc : N) : option N :=
  match s with
  | EmptyString => Some acc
  | String c s' =>
      match digit c with
      | Some d => digits s' (10 * acc + d)%N
      | None => None
      end
  end.

(** An array index is a canonical decimal numeral (no leading zero, except
    for "0" itself) below 2^32 - 1. *)
Definition array_index (k : string) : option N :=
  match k with
  | EmptyString => None
  | String c rest =>
      if (Ascii.eqb c "0" && negb (String.eqb rest EmptyString))%bool then None
      else match digits k 0 with
           | Some n => if (n <? 2 ^ 32 - 1)%N then Some n else None
           | None => None
           end
  end.

Definition is_index (k : string) : bool :=
  match array_index k with
  | Some _ => true
  | None => false
  end.

Fixpoint insert_index (n : N) (k : string) (l : list (N * string))
  : list (N * string) :=
  match l with
  | [] => [(n, k)]
  | (m, k') :: l' =>
      if (n <=? m)%N then (n, k) :: l else (m, k') :: insert_index n k l'
  end.

Fixpoint index_keys (ks : list string) : list (N * string) :=
  match ks with
  | [] => []
  | k :: ks' =>
      match array_index k with
      | Some n => insert_index n k (index_keys ks')
      | None => index_keys ks'
      end
  end.

(** [Object.keys(o)]. *)
Definition keys (o : object) : list string :=
  let ks := map fst o in
  (map snd (index_keys ks) ++ filter (fun k => negb (is_index k)) ks)%list.

(** What every reachable [timers] satisfies: one own property per key,
    and no own property at a name of [Object.prototype]. *)
Definition wf (o : object) : Prop :=
  NoDup (map fst o) /\ Forall (fun kv => inherited (fst kv) = false) o.

End Obj.

(** ** Effects of a handler

    A handler reads and updates [timers], reads the wall clock
    ([new Date()], [Date.now()]) and may raise a [TypeError] by reading a
    property of [undefined]; what it had done to [timers] before stays
    done.  The clock is the sequence of its successive readings, and the
    state counts how many have been consumed. *)

Class Host : Type := {
  clock : nat -> Z;                    (* the n-th reading, ms since the epoch *)
  toLocaleTimeString : Z -> string     (* Date.prototype.toLocaleTimeString *)
}.

Inductive exn : Type := TypeError.

Inductive result (A : Type) : Type :=
| Ok (a : A)
| Throw (e : exn).
Arguments Ok {A} a.
Arguments Throw {A} e.

Record state : Type := mkState {
  timers : Obj.object;
  reads : nat
}.

Definition M (A : Type) : Type := state -> state * result A.

Definition ret {A} (a : A) : M A := fun s => (s, Ok a).

Definition bind {A B} (m : M A) (k : A -> M B) : M B :=
  fun s =>
    match m s with
    | (s', Ok a) => k a s'
    | (s', Throw e) => (s', Throw e)
    end.

Definition throw {A} (e : exn) : M A := fun s => (s, Throw e).

Notation "x <- c1 ;; c2" := (bind c1 (fun x => c2))
  (at level 61, c1 at next level, right associativity).
Notation "c1 ;; c2" := (bind c1 (fun _ => c2))
  (at level 61, right associativity).

Fixpoint mapM {A B} (f : A -> M B) (l : list A) : M (list B) :=
  match l with
  | [] => ret []
  | a :: l' => b <- f a ;; bs <- mapM f l' ;; ret (b :: bs)
  end.

Section Handlers.
Context `{Host}.

(** [timers[k]] *)
Definition read (k : string) : M (option Obj.value) :=
  fun s => (s, Ok (Obj.get (timers s) k)).

(** [timers[k] = v] *)
Definition write (k : string) (v : Obj.value) : M unit :=
  fun s => (mkState (Obj.set (timers s) k v) (reads s), Ok tt).

(** [delete timers[k]] *)
Definition remove (k : string) : M unit :=
  fun s => (mkState (Obj.delete (timers s) k) (reads s), Ok tt).

(** [Object.keys(timers)] *)
Definition Object_keys : M (list string) :=
  fun s => (s, Ok (Obj.keys (timers s))).

(** [new Date()], and [Date.now()], which reads the same clock. *)
Definition new_Date : M Z :=
  fun s => (mkState (timers s) (S (reads s)), Ok (clock (reads s))).

Definition Date_now : M Z := new_Date.

(** [v.startTime]: a [TypeError] on [undefined], [undefined] on a value
    that has no such property. *)
Definition startTime (v : option Obj.value) : M (option Z) :=
  match v with
  | None => throw TypeError
  | Some v => ret (Obj.startTime_of v)
  end.

(** [d.toLocaleTimeString()] *)
Definition localeTime (d : option Z) : M string :=
  match d with
  | None => throw TypeError
  | Some t => ret (toLocaleTimeString t)
  end.

(** [timers[k].startTime.toLocaleTimeString()] *)
Definition startedAt (k : string) : M string :=
  v <- read k ;; d <- startTime v ;; localeTime d.

(** [now - d] for a date (or a number of ms) [now]: [NaN] when [d] is
    [undefined]. *)
Definition since (now : Z) (d : option Z) : Js.num :=
  match d with
  | Some t => Js.Num (now - t)
  | None => Js.NaN
  end.

Definition dq : string := String "034"%char EmptyString.
Definition nl : string := String "010"%char EmptyString.

(** [`"${k}"`] *)
Definition quoted (k : string) : string := dq ++ k ++ dq.

Definition string_of_nat (n : nat) : string := Js.string_of_Z (Z.of_nat n).

(** *** Label validation and resolution (lines 28-36) *)

Definition label_char (c : ascii) : bool :=
  let n := nat_of_ascii c in
  ((97 <=? n) && (n <=? 122) || (48 <=? n) && (n <=? 57)
   || (n =? 95) || (n =? 45))%nat%bool.

Fixpoint all_label_chars (s : string) : bool :=
  match s with
  | EmptyString => true
  | String c s' => label_char c && all_label_chars s'
  end.

(** [z.string().max(30).regex(/^[a-z0-9_-]+$/)] *)
Definition valid_label (s : string) : bool :=
  ((1 <=? String.length s) && (String.length s <=? 30))%nat
  && all_label_chars s.

(** [labelSchema]: the same, [.optional()]. *)
Definition valid_optional_label (l : option string) : bool :=
  match l with
  | None => true
  | Some s => valid_label s
  end.

(** [label || "default"]: [undefined] and the empty string are falsy. *)
Definition resolveLabel (label : option string) : string :=
  match label with
  | None => "default"
  | Some EmptyString => "default"
  | Some s => s
  end.

Definition runningCount : M nat :=
  ks <- Object_keys ;; ret (List.length ks).

(** *** start_timer (lines 40-58) *)

Definition start_timer (label : option string) : M string :=
  let name := resolveLabel label in
  t <- read name ;;
  if Obj.truthy t then
    at_ <- startedAt name ;;
    ret ("Timer " ++ quoted name ++ " is already running (started at "
           ++ at_ ++ ").")
  else
    now <- new_Date ;;
    write name (Obj.Timer now) ;;
    at_ <- startedAt name ;;
    let text := "Timer " ++ quoted name ++ " started at " ++ at_ ++ "." in
    n <- runningCount ;;
    if (3 <=? n)%nat then
      ks <- Object_keys ;;
      let names := Js.join ", " (map quoted ks) in
      n' <- runningCount ;;
      ret (text ++ nl ++ nl ++ "Heads up: you now have " ++ string_of_nat n'
             ++ " timers running (" ++ names
             ++ "). Did you forget to stop one?")
    else ret text.

(** *** current_timer (lines 60-78) *)

Definition current_timer (label : option string) : M string :=
  let name := resolveLabel label in
  timer <- read name ;;
  if negb (Obj.truthy timer) then
    ret ("No timer named " ++ quoted name ++ " is running.")
  else
    now <- Date_now ;;
    d <- startTime timer ;;
    let elapsed := formatElapsed (since now d) in
    at_ <- localeTime d ;;
    ret ("Timer " ++ quoted name ++ " is running." ++ nl
           ++ "Started:  " ++ at_ ++ nl ++ "Elapsed:  " ++ elapsed).

(** *** stop_timer (lines 80-100) *)

Definition stop_timer (label : option string) : M string :=
  let name := resolveLabel label in
  timer <- read name ;;
  if negb (Obj.truthy timer) then
    ret ("No timer named " ++ quoted name ++ " is running.")
  else
    endTime <- new_Date ;;
    d <- startTime timer ;;
    let elapsed := formatElapsed (since endTime d) in
    remove name ;;
    at_ <- localeTime d ;;
    ret ("Timer " ++ quoted name ++ " stopped." ++ nl
           ++ "Started:  " ++ at_ ++ nl
           ++ "Stopped:  " ++ toLocaleTimeString endTime ++ nl
           ++ "Elapsed:  " ++ elapsed).

(** *** list_timers (lines 102-120) *)

Definition list_line (now : Z) (name : string) : M string :=
  v <- read name ;;
  d <- startTime v ;;
  let elapsed := formatElapsed (since now d) in
  at_ <- startedAt name ;;
  ret ("- " ++ quoted name ++ "  started " ++ at_ ++ "  (" ++ elapsed ++ ")").

Definition list_timers : M string :=
  names <- Object_keys ;;
  if (List.length names =? 0)%nat then ret "No timers are running."
  else
    now <- Date_now ;;
    lines <- mapM (list_line now) names ;;
    ret ("Running timers (" ++ string_of_nat (List.length names) ++ "):" ++ nl
           ++ Js.join nl lines).

(** *** stop_all_timers (lines 122-142) *)

Definition stop_all_line (endTime : Z) (name : string) : M string :=
  v <- read name ;;
  d <- startTime v ;;
  let elapsed := formatElapsed (since endTime d) in
  started <- startedAt name ;;
  remove name ;;
  ret ("- " ++ quoted name ++ "  " ++ started ++ " → "
         ++ toLocaleTimeString endTime ++ "  (" ++ elapsed ++ ")").

Definition stop_all_timers : M string :=
  names <- Object_keys ;;
  if (List.length names =? 0)%nat then ret "No timers are running."
  else
    endTime <- new_Date ;;
    lines <- mapM (stop_all_line endTime) names ;;
    ret ("Stopped " ++ string_of_nat (List.length lines) ++ " timer(s):" ++ nl
           ++ Js.join nl lines).

(** *** rename_timer (lines 144-168)

    The value assigned at line 162 is the one the test at line 150 read:
    nothing changes [timers] in between. *)

Definition rename_timer (from : option string) (to : string) : M string :=
  let oldName := resolveLabel from in
  old <- read oldName ;;
  match old with
  | None => ret ("No timer named " ++ quoted oldName ++ " is running.")
  | Some v =>
      target <- read to ;;
      if Obj.truthy target then
        ret ("A timer named " ++ quoted to
               ++ " is already running. Stop it first or choose a different name.")
      else
        write to v ;;
        remove oldName ;;
        ret ("Timer renamed from " ++ quoted oldName ++ " to " ++ quoted to
               ++ ".")
  end.

(** *** switch_timer (lines 170-194) *)

Definition switch_timer (stop : option string) (start : string) : M string :=
  let stopName := resolveLabel stop in
  now <- new_Date ;;
  stopped <- read stopName ;;
  summary <-
    (if Obj.truthy stopped then
       d <- startTime stopped ;;
       let elapsed := formatElapsed (since now d) in
       remove stopName ;;
       ret ("Stopped " ++ quoted stopName ++ " (" ++ elapsed ++ ")." ++ nl)
     else
       ret ("No timer named " ++ quoted stopName ++ " was running." ++ nl)) ;;
  running <- read start ;;
  if Obj.truthy running then
    at_ <- startedAt start ;;
    ret (summary ++ "Timer " ++ quoted start
           ++ " is already running (started at " ++ at_ ++ ").")
  else
    write start (Obj.Timer now) ;;
    ret (summary ++ "Started " ++ quoted start ++ " at "
           ++ toLocaleTimeString now ++ ".").

End Handlers.

(** ** The seven operations behind one dispatcher *)

Inductive call : Type :=
| StartTimer (label : option string)
| CurrentTimer (label : option string)
| StopTimer (label : option string)
| ListTimers
| StopAllTimers
| RenameTimer (from : option string) (to : string)
| SwitchTimer (stop : option string) (start : string).

(** The argument record passes the schema of its tool. *)
Definition valid_call (c : call) : bool :=
  match c with
  | StartTimer l | CurrentTimer l | StopTimer l => valid_optional_label l
  | ListTimers | StopAllTimers => true
  | RenameTimer a b | SwitchTimer a b => valid_optional_label a && valid_label b
  end.

Definition handle `{Host} (c : call) : M string :=
  match c with
  | StartTimer l => start_timer l
  | CurrentTimer l => current_timer l
  | StopTimer l => stop_timer l
  | ListTimers => list_timers
  | StopAllTimers => stop_all_timers
  | RenameTimer a b => rename_timer a b
  | SwitchTimer a b => switch_timer a b
  end.

(** The labels a call looks up in [timers]. *)
Definition call_labels (c : call) : list string :=
  match c with
  | StartTimer l | CurrentTimer l | StopTimer l => [resolveLabel l]
  | ListTimers | StopAllTimers => []
  | RenameTimer a b | SwitchTimer a b => [resolveLabel a; b]
  end.

(** None of them is a name of [Object.prototype]. *)
Definition own_lookups_only (c : call) : Prop :=
  Forall (fun k => Obj.inherited k = false) (call_labels c).

(** A call that passes its schema and names neither of the two labels the
    schema accepts that [Object.prototype] defines. *)
Definition ordinary_call (c : call) : Prop :=
  valid_call c = true
  /\ ~ In "constructor" (call_labels c)
  /\ ~ In "__proto__" (call_labels c).

(** The label whose entry a call may delete ([stop_all_timers] deletes
    every entry). *)
Definition removed_labels (c : call) : list string :=
  match c with
  | StopTimer l => [resolveLabel l]
  | RenameTimer a _ | SwitchTimer a _ => [resolveLabel a]
  | StartTimer _ | CurrentTimer _ | ListTimers | StopAllTimers => []
  end.

(** Running a sequence of calls, keeping every outcome. *)
Fixpoint run `{Host} (cs : list call) (s : state)
  : state * list (result string) :=
  match cs with
  | [] => (s, [])
  | c :: cs' =>
      let (s1, r) := handle c s in
      let (s2, rs) := run cs' s1 in
      (s2, r :: rs)
  end.

(** The state at process start. *)
Definition initial : state := mkState [] 0.

(** A sample host for concrete runs: the clock advances by one second per
    reading, and times print as the number of seconds since the epoch. *)
Definition sample_host : Host := {|
  clock := fun n => 1000 * Z.of_nat n;
  toLocaleTimeString := fun t => Js.string_of_Z (t / 1000) ++ "s"
|}.

(** ** The specification's wording, for comparison with the code *)

(** Elapsed-time formatting as the specification words it: whole seconds by
    floor division, hours, then minutes out of the remainder, then the
    remaining seconds; a segment for hours and for minutes unless zero, and
    always one for seconds. *)
Definition spec_formatElapsed (ms : Z) : string :=
  let total := ms / 1000 in
  let h := total / 3600 in
  let remainder := total mod 3600 in
  let m := remainder / 60 in
  let s := remainder mod 60 in
  let seg (n : Z) (unit : string) : string := Js.string_of_Z n ++ unit in
  Js.join " "
    (List.app (if h =? 0 then [] else [seg h "h"])
       (List.app (if m =? 0 then [] else [seg m "m"]) [seg s "s"])).

(** A string of decimal digits. *)
Definition digit_char (c : ascii) : bool :=
  match Obj.digit c with
  | Some _ => true
  | None => false
  end.

Fixpoint only_digits (s : string) : bool :=
  match s with
  | EmptyString => true
  | String c s' => digit_char c && only_digits s'
  end.

(** A rendered segment: the decimal numeral of [n], the unit letter, and
    what follows. *)
Definition segment (n : Z) (unit : ascii) (rest : string) : string :=
  Js.string_of_Z n ++ String unit rest.

(** Every stored value is a timer record. *)
Definition all_records (o : Obj.object) : Prop :=
  Forall (fun kv => exists t, snd kv = Obj.Timer t) o.

(** The start time stored under an own key (0 where there is none). *)
Definition started (o : Obj.object) (k : string) : Z :=
  match Obj.own o k with
  | Some (Obj.Timer t) => t
  | _ => 0
  end.

(** One line of a listing, and the listing of the labels [ks] in that
    order, all elapsed times taken against the same [now]. *)
Definition timer_line `{Host} (now : Z) (o : Obj.object) (k : string)
  : string :=
  "- " ++ quoted k ++ "  started " ++ toLocaleTimeString (started o k)
    ++ "  (" ++ formatElapsed (Js.Num (now - started o k)) ++ ")".

Definition listing `{Host} (now : Z) (o : Obj.object) (ks : list string)
  : string :=
  "Running timers (" ++ string_of_nat (List.length ks) ++ "):" ++ nl
    ++ Js.join nl (map (timer_line now o) ks).

(** One line of the summary of [stop_all_timers]. *)
Definition stopped_line `{Host} (endTime : Z) (o : Obj.object) (k : string)
  : string :=
  "- " ++ quoted k ++ "  " ++ toLocaleTimeString (started o k) ++ " → "
    ++ toLocaleTimeString endTime ++ "  ("
    ++ formatElapsed (Js.Num (endTime - started o k)) ++ ")".

(** The listing the specification describes: one line per entry, in
    insertion order. *)
Definition spec_listing `{Host} (now : Z) (o : Obj.object) : string :=
  listing now o (map fst o).

(** The numeric value of a label that is an array index. *)
Definition index_of (k : string) : N :=
  match Obj.array_index k with
  | Some n => n
  | None => 0
  end.

(** The order of [Object.keys] relative to the insertion order: the labels
    that are array indices come first, by ascending value, and the others
    follow in insertion order. *)
Definition own_key_order (ks inserted : list string) : Prop :=
  exists idx,
    ks = (idx ++ filter (fun k => negb (Obj.is_index k)) inserted)%list
    /\ Forall (fun k => Obj.is_index k = true) idx
    /\ StronglySorted (fun a b => (index_of a <= index_of b)%N) idx.

(** The warning [start_timer] appends (lines 53-54). *)
Definition heads_up (o : Obj.object) : string :=
  nl ++ nl ++ "Heads up: you now have " ++ string_of_nat (List.length (Obj.keys o))
    ++ " timers running (" ++ Js.join ", " (map quoted (Obj.keys o))
    ++ "). Did you forget to stop one?".

(** Runs the monadic plumbing of a handler, leaving strings and object
    operations as they are. *)
Ltac run_handler :=
  cbv beta delta [bind ret throw read write remove Object_keys new_Date
                  Date_now startTime localeTime startedAt runningCount];
  cbn [timers reads fst snd Obj.truthy negb Obj.startTime_of].

Ltac run_with E := repeat (progress (run_handler; try rewrite !E)).

(** Side conditions on a concrete registry or a concrete list of calls. *)
Ltac concrete :=
  repeat first
    [ reflexivity
    | discriminate
    | progress cbn [In call_labels removed_labels map fst snd timers reads]
    | match goal with
      | |- _ /\ _ => split
      | |- Obj.wf _ => split
      | |- all_records _ => unfold all_records
      | |- ordinary_call _ => unfold ordinary_call
      | |- NoDup _ => constructor
      | |- Forall _ _ => constructor
      | |- exists t, Obj.Timer _ = Obj.Timer t => eexists
      | |- ~ _ => intros ?
      | E : _ \/ _ |- _ => destruct E
      | E : False |- _ => destruct E
      | E : _ = _ |- _ => discriminate E
      end ].

(** * Properties *)

(** ** Elapsed-time formatting *)

(** C2, as amended: the formatting function maps 0 ms to "0s", 59000 ms
    to "59s", 60000 ms to "1m 0s", 3600000 ms to "1h 0s" (a zero minutes
    segment is left out, also after an hours segment) and 3725000 ms to
    "1h 2m 5s". *)
Theorem formatElapsed_examples :
  formatElapsed (Js.Num 0) = "0s"
  /\ formatElapsed (Js.Num 59000) = "59s"
  /\ formatElapsed (Js.Num 60000) = "1m 0s"
  /\ formatElapsed (Js.Num 3600000) = "1h 0s"
  /\ formatElapsed (Js.Num 3725000) = "1h 2m 5s".
Proof. repeat split; vm_compute; reflexivity. Qed.

(** C2 as stated fails at 3600000 ms: the result is not "1h 0m 0s". *)
Lemma formatElapsed_one_hour_counterexample :
  formatElapsed (Js.Num 3600000) <> "1h 0m 0s".
Proof. vm_compute. discriminate. Qed.

Lemma rem_60_of_rem_3600 (t : Z) : 0 <= t -> Z.rem t 60 = (t mod 3600) mod 60.
Proof.
  intros Ht. rewrite Z.rem_mod_nonneg by lia.
  rewrite (Z.div_mod t 3600) at 1 by lia.
  replace (3600 * (t / 3600) + t mod 3600)
    with (t mod 3600 + (60 * (t / 3600)) * 60) by lia.
  apply Z.mod_add. lia.
Qed.

(** C3 as stated, for every duration, fails on a negative one (the clock
    stepped back since the timer started): at -1000 ms the whole seconds
    are -1, the hours -1 and the remainder 3599, so the rule of the
    specification renders "-1h 59m 59s"; the code tests [hours > 0] and
    [minutes > 0], takes remainders with the sign of the dividend, and
    renders "-1s". *)
Lemma formatElapsed_minus_one_second_counterexample :
  formatElapsed (Js.Num (-1000)) = "-1s"
  /\ spec_formatElapsed (-1000) = "-1h 59m 59s"
  /\ formatElapsed (Js.Num (-1000)) <> spec_formatElapsed (-1000).
Proof.
  split; [reflexivity|]. split; [reflexivity|]. vm_compute. discriminate.
Qed.

(** C3, as amended: for every duration [ms >= 0] the code renders what the
    specification describes: whole seconds [ms / 1000] split as
    [3600 h + 60 m + s] with [m], [s] below 60, a segment for [h] and for
    [m] unless zero and always one for [s], joined by spaces; 0 ms gives
    "0s", 3661000 ms gives "1h 1m 1s" and 65000 ms gives "1m 5s". *)
Theorem formatElapsed_spec (ms : Z) (Hms : 0 <= ms) :
  let total := ms / 1000 in
  let h := total / 3600 in
  let m := (total mod 3600) / 60 in
  let s := (total mod 3600) mod 60 in
  formatElapsed (Js.Num ms) = spec_formatElapsed ms
  /\ total = 3600 * h + 60 * m + s
  /\ 0 <= h /\ 0 <= m < 60 /\ 0 <= s < 60
  /\ 1000 * total <= ms < 1000 * total + 1000
  /\ formatElapsed (Js.Num 0) = "0s"
  /\ formatElapsed (Js.Num 3661000) = "1h 1m 1s"
  /\ formatElapsed (Js.Num 65000) = "1m 5s".
Proof.
  intros total h m s.
  assert (Ht : 0 <= total) by (apply Z.div_pos; lia).
  assert (Hr : 0 <= total mod 3600 < 3600) by (apply Z.mod_pos_bound; lia).
  assert (Hh : 0 <= h) by (apply Z.div_pos; lia).
  assert (Hm : 0 <= m < 60).
  { subst m. split; [apply Z.div_pos; lia | apply Z.div_lt_upper_bound; lia]. }
  assert (Hs : 0 <= s < 60) by (apply Z.mod_pos_bound; lia).
  split.
  - unfold formatElapsed, spec_formatElapsed.
    cbn [Js.floor_div Js.rem Js.gt0 Js.to_string].
    fold total. rewrite rem_60_of_rem_3600 by exact Ht.
    rewrite (Z.rem_mod_nonneg total 3600) by lia.
    fold h m s. unfold Js.push.
    destruct (Z.ltb_spec 0 h), (Z.eqb_spec h 0); try lia;
      destruct (Z.ltb_spec 0 m), (Z.eqb_spec m 0); try lia; reflexivity.
  - pose proof (Z.div_mod total 3600 ltac:(lia)) as E1.
    pose proof (Z.div_mod (total mod 3600) 60 ltac:(lia)) as E2.
    pose proof (Z.div_mod ms 1000 ltac:(lia)) as E3.
    pose proof (Z.mod_pos_bound ms 1000 ltac:(lia)) as B3.
    fold h in E1. fold m s in E2. fold total in E3.
    repeat split; try lia; vm_compute; reflexivity.
Qed.

(** ** The object: reads after writes and deletions *)

Section ObjectFacts.
Implicit Types (o : Obj.object) (k : string) (v : Obj.value).

Lemma own_set_eq o k v : Obj.own (Obj.set o k v) k = Some v.
Proof.
  induction o as [|[k' v'] o IH]; cbn.
  - now rewrite String.eqb_refl.
  - destruct (String.eqb_spec k' k) as [->|Hne]; cbn.
    + now rewrite String.eqb_refl.
    + destruct (String.eqb_spec k' k); [contradiction | exact IH].
Qed.

Lemma own_set_neq o k k' v :
  k <> k' -> Obj.own (Obj.set o k v) k' = Obj.own o k'.
Proof.
  intros Hne. induction o as [|[k1 v1] o IH]; cbn.
  - destruct (String.eqb_spec k k'); [contradiction | reflexivity].
  - destruct (String.eqb_spec k1 k) as [->|H1]; cbn.
    + destruct (String.eqb_spec k k'); [contradiction | reflexivity].
    + destruct (String.eqb_spec k1 k'); [reflexivity | exact IH].
Qed.

Lemma own_None_iff o k : Obj.own o k = None <-> ~ In k (map fst o).
Proof.
  induction o as [|[k' v'] o IH]; cbn.
  - tauto.
  - destruct (String.eqb_spec k' k) as [->|Hne].
    + split; [discriminate | intros Hn; exfalso; apply Hn; now left].
    + rewrite IH. split; [intros Hn [E|Hin]; auto | tauto].
Qed.

Lemma own_Some_in o k v : Obj.own o k = Some v -> In (k, v) o.
Proof.
  induction o as [|[k' v'] o IH]; cbn; [discriminate|].
  destruct (String.eqb_spec k' k) as [->|Hne].
  - intros [= ->]. now left.
  - intros Hown. right. now apply IH.
Qed.

Lemma set_fresh o k v : Obj.own o k = None -> Obj.set o k v = (o ++ [(k, v)])%list.
Proof.
  induction o as [|[k' v'] o IH]; cbn; [reflexivity|].
  destruct (String.eqb_spec k' k); [discriminate|].
  intros Hown. now rewrite IH.
Qed.

Lemma own_delete_eq o k : Obj.own (Obj.delete o k) k = None.
Proof.
  induction o as [|[k' v'] o IH]; cbn; [reflexivity|].
  destruct (String.eqb_spec k' k) as [->|Hne]; cbn; [exact IH|].
  destruct (String.eqb_spec k' k); [contradiction | exact IH].
Qed.

Lemma own_delete_neq o k k' :
  k <> k' -> Obj.own (Obj.delete o k) k' = Obj.own o k'.
Proof.
  intros Hne. induction o as [|[k1 v1] o IH]; cbn; [reflexivity|].
  destruct (String.eqb_spec k1 k) as [->|H1]; cbn.
  - destruct (String.eqb_spec k k'); [contradiction | exact IH].
  - destruct (String.eqb_spec k1 k'); [reflexivity | exact IH].
Qed.

Lemma delete_absent o k : Obj.own o k = None -> Obj.delete o k = o.
Proof.
  induction o as [|[k' v'] o IH]; cbn; [reflexivity|].
  destruct (String.eqb_spec k' k); [discriminate|].
  intros Hown. cbn. f_equal. now apply IH.
Qed.

Lemma delete_incl o k kv : In kv (Obj.delete o k) -> In kv o /\ fst kv <> k.
Proof.
  unfold Obj.delete. rewrite filter_In. intros [Hin Hk]. split; [exact Hin|].
  destruct (String.eqb_spec (fst kv) k); [discriminate | assumption].
Qed.

Lemma get_own o k v : Obj.own o k = Some v -> Obj.get o k = Some v.
Proof. unfold Obj.get. now intros ->. Qed.

Lemma get_None_iff o k :
  Obj.get o k = None <-> Obj.own o k = None /\ Obj.inherited k = false.
Proof.
  unfold Obj.get. destruct (Obj.own o k); [split; [discriminate | intros [? _]; discriminate]|].
  destruct (Obj.inherited k); split; try discriminate; auto.
  intros [_ ?]; discriminate.
Qed.

Lemma get_absent o k :
  Obj.own o k = None -> Obj.inherited k = false -> Obj.get o k = None.
Proof. intros. now apply get_None_iff. Qed.

Lemma get_inherited o k :
  Obj.own o k = None -> Obj.inherited k = true ->
  Obj.get o k = Some (Obj.Inherited k).
Proof. unfold Obj.get. now intros -> ->. Qed.

(** *** The invariant *)

Lemma wf_nil : Obj.wf [].
Proof. split; constructor. Qed.

Lemma wf_own_not_inherited o k v :
  Obj.wf o -> Obj.own o k = Some v -> Obj.inherited k = false.
Proof.
  intros [_ Hf] Hown. apply own_Some_in in Hown.
  rewrite Forall_forall in Hf. exact (Hf _ Hown).
Qed.

Lemma wf_set_fresh o k v :
  Obj.wf o -> Obj.get o k = None -> Obj.wf (Obj.set o k v).
Proof.
  intros [Hnd Hf] Hget. apply get_None_iff in Hget as [Hown Hinh].
  rewrite set_fresh by exact Hown. split.
  - rewrite map_app. cbn. apply NoDup_app; [exact Hnd | repeat constructor; cbn; tauto|].
    intros a Ha [<-|[]]. now apply own_None_iff in Hown.
  - apply Forall_app. split; [exact Hf | repeat constructor; exact Hinh].
Qed.

Lemma wf_delete o k : Obj.wf o -> Obj.wf (Obj.delete o k).
Proof.
  intros [Hnd Hf]. split.
  - unfold Obj.delete. induction o as [|[k' v'] o IH]; cbn; [constructor|].
    inversion Hnd as [|? ? Hn Hnd']; subst. inversion Hf; subst.
    destruct (String.eqb k' k); cbn; [now apply IH|].
    constructor; [|now apply IH].
    intros Hin. apply Hn. apply in_map_iff in Hin as [kv [E Hin]].
    apply filter_In in Hin as [Hin _]. apply in_map_iff. now exists kv.
  - rewrite Forall_forall in *. intros kv Hin.
    apply delete_incl in Hin as [Hin _]. now apply Hf.
Qed.

End ObjectFacts.

(** ** The key order of [Object.keys] *)

Section KeyOrder.
Implicit Types (o : Obj.object) (k : string) (ks : list string).

Lemma insert_index_perm n k (l : list (N * string)) :
  Permutation (Obj.insert_index n k l) ((n, k) :: l).
Proof.
  induction l as [|[m k'] l IH]; cbn; [reflexivity|].
  destruct (n <=? m)%N; [reflexivity|].
  rewrite IH. apply perm_swap.
Qed.

Lemma index_keys_perm ks :
  Permutation (map snd (Obj.index_keys ks)) (filter Obj.is_index ks).
Proof.
  induction ks as [|k ks IH]; cbn; [reflexivity|].
  unfold Obj.is_index at 1. destruct (Obj.array_index k) as [n|]; [|exact IH].
  rewrite insert_index_perm. cbn. now constructor.
Qed.

Lemma filter_partition_perm ks (p : string -> bool) :
  Permutation (filter p ks ++ filter (fun k => negb (p k)) ks) ks.
Proof.
  induction ks as [|k ks IH]; cbn; [reflexivity|].
  destruct (p k); cbn.
  - now constructor.
  - rewrite <- Permutation_middle. now constructor.
Qed.

Lemma keys_perm o : Permutation (Obj.keys o) (map fst o).
Proof.
  unfold Obj.keys. rewrite index_keys_perm. apply filter_partition_perm.
Qed.

Lemma keys_length o : List.length (Obj.keys o) = List.length o.
Proof.
  rewrite (Permutation_length (keys_perm o)). apply length_map.
Qed.

Lemma keys_In o k : In k (Obj.keys o) <-> In k (map fst o).
Proof.
  split; apply Permutation_in; [|symmetry]; apply keys_perm.
Qed.

Lemma keys_nil_iff o : Obj.keys o = [] <-> o = [].
Proof.
  split; [|now intros ->].
  intros Hk. pose proof (keys_length o) as Hl. rewrite Hk in Hl.
  destruct o; [reflexivity | discriminate].
Qed.

Lemma keys_NoDup o : Obj.wf o -> NoDup (Obj.keys o).
Proof.
  intros [Hnd _]. eapply Permutation_NoDup; [symmetry; apply keys_perm | exact Hnd].
Qed.

Lemma insert_index_Forall (P : N * string -> Prop) n k l :
  P (n, k) -> Forall P l -> Forall P (Obj.insert_index n k l).
Proof.
  intros Hp Hl. eapply Permutation_Forall; [symmetry; apply insert_index_perm|].
  now constructor.
Qed.

Lemma index_keys_indexed ks :
  Forall (fun nk => Obj.array_index (snd nk) = Some (fst nk)) (Obj.index_keys ks).
Proof.
  induction ks as [|k ks IH]; cbn; [constructor|].
  destruct (Obj.array_index k) as [n|] eqn:E; [|exact IH].
  now apply insert_index_Forall.
Qed.

Lemma insert_index_sorted n k l :
  StronglySorted (fun a b => (fst a <= fst b)%N) l ->
  StronglySorted (fun a b => (fst a <= fst b)%N) (Obj.insert_index n k l).
Proof.
  induction l as [|[m k'] l IH]; cbn; intros Hs.
  - repeat constructor.
  - inversion Hs as [|? ? Hs' Hall]; subst.
    destruct (N.leb_spec n m) as [Hle|Hlt].
    + constructor; [exact Hs|]. constructor; [exact Hle|].
      eapply Forall_impl; [|exact Hall]. cbn. intros; lia.
    + constructor; [now apply IH|].
      apply insert_index_Forall; [cbn; lia | exact Hall].
Qed.

Lemma index_keys_sorted ks :
  StronglySorted (fun a b => (fst a <= fst b)%N) (Obj.index_keys ks).
Proof.
  induction ks as [|k ks IH]; cbn; [constructor|].
  destruct (Obj.array_index k); [now apply insert_index_sorted | exact IH].
Qed.

Lemma sorted_map_snd (l : list (N * string)) :
  Forall (fun nk => Obj.array_index (snd nk) = Some (fst nk)) l ->
  StronglySorted (fun a b => (fst a <= fst b)%N) l ->
  StronglySorted (fun a b => (index_of a <= index_of b)%N) (map snd l).
Proof.
  induction 2 as [|[n k] l Hs IH Hall]; cbn; [constructor|].
  inversion H as [|? ? Hnk Hl]; subst. cbn in Hnk.
  constructor; [now apply IH|].
  rewrite Forall_map. rewrite Forall_forall in *. intros [m k'] Hin.
  specialize (Hall _ Hin). specialize (Hl _ Hin). cbn in *.
  unfold index_of. now rewrite Hnk, Hl.
Qed.

(** [Object.keys] lists every own key once: the array indices by ascending
    value, then the other keys in insertion order. *)
Lemma keys_order o : own_key_order (Obj.keys o) (map fst o).
Proof.
  exists (map snd (Obj.index_keys (map fst o))). split; [reflexivity|]. split.
  - rewrite Forall_map.
    eapply Forall_impl; [|apply index_keys_indexed].
    intros [n k] E. cbn in *. unfold Obj.is_index. now rewrite E.
  - apply sorted_map_snd; [apply index_keys_indexed | apply index_keys_sorted].
Qed.

Lemma index_keys_none ks :
  Forall (fun k => Obj.is_index k = false) ks -> Obj.index_keys ks = [].
Proof.
  induction 1 as [|k ks Hk _ IH]; cbn; [reflexivity|].
  unfold Obj.is_index in Hk. destruct (Obj.array_index k); [discriminate | exact IH].
Qed.

(** Where no label is an array index, that order is the insertion order. *)
Lemma keys_insertion_order o :
  Forall (fun k => Obj.is_index k = false) (map fst o) ->
  Obj.keys o = map fst o.
Proof.
  intros Hn. unfold Obj.keys. rewrite index_keys_none by exact Hn. cbn.
  induction Hn as [|k ks Hk _ IH]; cbn; [reflexivity|].
  rewrite Hk. cbn. now rewrite IH.
Qed.

End KeyOrder.

(** ** The handlers, branch by branch *)

Section Branches.
Context `{Host}.
Implicit Types (s : state) (label : option string) (k : string).

Lemma state_eta s : mkState (timers s) (reads s) = s.
Proof. now destruct s. Qed.

(** *** start_timer *)

Lemma start_timer_running label s t :
  Obj.get (timers s) (resolveLabel label) = Some (Obj.Timer t) ->
  start_timer label s =
    (s, Ok ("Timer " ++ quoted (resolveLabel label)
              ++ " is already running (started at " ++ toLocaleTimeString t
              ++ ").")).
Proof.
  intros Hget. unfold start_timer. run_with Hget. reflexivity.
Qed.

Lemma start_timer_inherited label s n :
  Obj.get (timers s) (resolveLabel label) = Some (Obj.Inherited n) ->
  start_timer label s = (s, Throw TypeError).
Proof.
  intros Hget. unfold start_timer. run_with Hget. reflexivity.
Qed.

Lemma start_timer_fresh label s :
  Obj.get (timers s) (resolveLabel label) = None ->
  let name := resolveLabel label in
  let now := clock (reads s) in
  let o' := (timers s ++ [(name, Obj.Timer now)])%list in
  let text :=
    "Timer " ++ quoted name ++ " started at " ++ toLocaleTimeString now ++ "." in
  start_timer label s =
    (mkState o' (S (reads s)),
     Ok (if (3 <=? List.length o')%nat then text ++ heads_up o' else text)).
Proof.
  intros Hget name now o' text. pose proof Hget as Hget'.
  apply get_None_iff in Hget' as [Hown Hinh].
  unfold start_timer. run_with Hget.
  fold name now. rewrite set_fresh by exact Hown. fold o'.
  rewrite (get_own o' name (Obj.Timer now)).
  2:{ subst o'. rewrite <- (set_fresh _ _ _ Hown). apply own_set_eq. }
  run_handler. rewrite keys_length.
  destruct (3 <=? List.length o')%nat; run_handler; [|reflexivity].
  unfold heads_up. rewrite keys_length. reflexivity.
Qed.

(** *** current_timer *)

Lemma current_timer_absent label s :
  Obj.get (timers s) (resolveLabel label) = None ->
  current_timer label s =
    (s, Ok ("No timer named " ++ quoted (resolveLabel label) ++ " is running.")).
Proof. intros Hget. unfold current_timer. run_with Hget. reflexivity. Qed.

Lemma current_timer_running label s t :
  Obj.get (timers s) (resolveLabel label) = Some (Obj.Timer t) ->
  current_timer label s =
    (mkState (timers s) (S (reads s)),
     Ok ("Timer " ++ quoted (resolveLabel label) ++ " is running." ++ nl
           ++ "Started:  " ++ toLocaleTimeString t ++ nl
           ++ "Elapsed:  " ++ formatElapsed (Js.Num (clock (reads s) - t)))).
Proof. intros Hget. unfold current_timer. run_with Hget. reflexivity. Qed.

Lemma current_timer_inherited label s n :
  Obj.get (timers s) (resolveLabel label) = Some (Obj.Inherited n) ->
  current_timer label s = (mkState (timers s) (S (reads s)), Throw TypeError).
Proof. intros Hget. unfold current_timer. run_with Hget. reflexivity. Qed.

(** *** stop_timer *)

Lemma stop_timer_absent label s :
  Obj.get (timers s) (resolveLabel label) = None ->
  stop_timer label s =
    (s, Ok ("No timer named " ++ quoted (resolveLabel label) ++ " is running.")).
Proof. intros Hget. unfold stop_timer. run_with Hget. reflexivity. Qed.

Lemma stop_timer_running label s t :
  Obj.get (timers s) (resolveLabel label) = Some (Obj.Timer t) ->
  let now := clock (reads s) in
  stop_timer label s =
    (mkState (Obj.delete (timers s) (resolveLabel label)) (S (reads s)),
     Ok ("Timer " ++ quoted (resolveLabel label) ++ " stopped." ++ nl
           ++ "Started:  " ++ toLocaleTimeString t ++ nl
           ++ "Stopped:  " ++ toLocaleTimeString now ++ nl
           ++ "Elapsed:  " ++ formatElapsed (Js.Num (now - t)))).
Proof. intros Hget. unfold stop_timer. run_with Hget. reflexivity. Qed.

Lemma stop_timer_inherited label s n :
  Obj.get (timers s) (resolveLabel label) = Some (Obj.Inherited n) ->
  stop_timer label s =
    (mkState (Obj.delete (timers s) (resolveLabel label)) (S (reads s)),
     Throw TypeError).
Proof. intros Hget. unfold stop_timer. run_with Hget. reflexivity. Qed.

(** *** rename_timer *)

Lemma rename_timer_absent from to s :
  Obj.get (timers s) (resolveLabel from) = None ->
  rename_timer from to s =
    (s, Ok ("No timer named " ++ quoted (resolveLabel from) ++ " is running.")).
Proof. intros Hget. unfold rename_timer. run_with Hget. reflexivity. Qed.

Lemma rename_timer_rejected from to s v w :
  Obj.get (timers s) (resolveLabel from) = Some v ->
  Obj.get (timers s) to = Some w ->
  rename_timer from to s =
    (s, Ok ("A timer named " ++ quoted to
              ++ " is already running. Stop it first or choose a different name.")).
Proof.
  intros Hfrom Hto. unfold rename_timer. run_with Hfrom. run_with Hto.
  reflexivity.
Qed.

Lemma rename_timer_moved from to s v :
  Obj.get (timers s) (resolveLabel from) = Some v ->
  Obj.get (timers s) to = None ->
  rename_timer from to s =
    (mkState (Obj.delete (Obj.set (timers s) to v) (resolveLabel from)) (reads s),
     Ok ("Timer renamed from " ++ quoted (resolveLabel from) ++ " to "
           ++ quoted to ++ ".")).
Proof.
  intros Hfrom Hto. unfold rename_timer. run_with Hfrom. run_with Hto.
  reflexivity.
Qed.

(** *** switch_timer: the stop half, then the start half *)

Lemma switch_timer_unfold stop start s :
  let stopName := resolveLabel stop in
  let now := clock (reads s) in
  let o := timers s in
  let o1 := match Obj.get o stopName with
            | Some _ => Obj.delete o stopName
            | None => o
            end in
  let summary :=
    match Obj.get o stopName with
    | Some v =>
        "Stopped " ++ quoted stopName ++ " ("
          ++ formatElapsed (since now (Obj.startTime_of v)) ++ ")." ++ nl
    | None => "No timer named " ++ quoted stopName ++ " was running." ++ nl
    end in
  switch_timer stop start s =
    match Obj.get o1 start with
    | Some (Obj.Timer t) =>
        (mkState o1 (S (reads s)),
         Ok (summary ++ "Timer " ++ quoted start
               ++ " is already running (started at " ++ toLocaleTimeString t
               ++ ")."))
    | Some (Obj.Inherited _) => (mkState o1 (S (reads s)), Throw TypeError)
    | None =>
        (mkState (Obj.set o1 start (Obj.Timer now)) (S (reads s)),
         Ok (summary ++ "Started " ++ quoted start ++ " at "
               ++ toLocaleTimeString now ++ "."))
    end.
Proof.
  intros stopName now o o1 summary. subst o1 summary.
  unfold switch_timer. fold stopName. run_handler. fold now o.
  destruct (Obj.get o stopName) as [v|]; run_handler.
  - destruct (Obj.get (Obj.delete o stopName) start) as [[t|n]|] eqn:E;
      run_with E; reflexivity.
  - destruct (Obj.get o start) as [[t|n]|] eqn:E; run_with E; reflexivity.
Qed.

(** *** list_timers *)

Lemma own_record (o : Obj.object) k :
  all_records o -> In k (map fst o) -> exists t, Obj.own o k = Some (Obj.Timer t).
Proof.
  intros Hrec Hin. destruct (Obj.own o k) as [v|] eqn:E.
  - apply own_Some_in in E. unfold all_records in Hrec.
    rewrite Forall_forall in Hrec. destruct (Hrec _ E) as [t Ht].
    cbn in Ht. subst v. now exists t.
  - apply own_None_iff in E. contradiction.
Qed.

Lemma list_line_record now k s t :
  Obj.own (timers s) k = Some (Obj.Timer t) ->
  list_line now k s = (s, Ok (timer_line now (timers s) k)).
Proof.
  intros Hown. pose proof (get_own _ _ _ Hown) as Hget.
  unfold list_line, timer_line, started. rewrite Hown. run_with Hget.
  reflexivity.
Qed.

Lemma mapM_list_line now ks s :
  (forall k, In k ks -> exists t, Obj.own (timers s) k = Some (Obj.Timer t)) ->
  mapM (list_line now) ks s = (s, Ok (map (timer_line now (timers s)) ks)).
Proof.
  induction ks as [|k ks IH]; intros Hks; cbn [mapM map]; [reflexivity|].
  destruct (Hks k (or_introl eq_refl)) as [t Ht].
  unfold bind at 1. rewrite (list_line_record now k s t Ht).
  unfold bind at 1. rewrite IH by (intros; apply Hks; now right).
  reflexivity.
Qed.

Lemma list_timers_empty s :
  timers s = [] -> list_timers s = (s, Ok "No timers are running.").
Proof. intros E. unfold list_timers. run_handler. now rewrite E. Qed.

Lemma list_timers_records s :
  timers s <> [] -> all_records (timers s) ->
  list_timers s =
    (mkState (timers s) (S (reads s)),
     Ok (listing (clock (reads s)) (timers s) (Obj.keys (timers s)))).
Proof.
  intros Hne Hrec. unfold list_timers. run_handler.
  destruct (Nat.eqb_spec (List.length (Obj.keys (timers s))) 0) as [E|_].
  { apply length_zero_iff_nil, keys_nil_iff in E. contradiction. }
  rewrite mapM_list_line.
  - reflexivity.
  - cbn [timers]. intros k Hin. apply own_record; [exact Hrec|].
    now apply keys_In.
Qed.

(** *** stop_all_timers *)

Lemma stop_all_line_record e k s t :
  Obj.own (timers s) k = Some (Obj.Timer t) ->
  stop_all_line e k s =
    (mkState (Obj.delete (timers s) k) (reads s),
     Ok (stopped_line e (timers s) k)).
Proof.
  intros Hown. pose proof (get_own _ _ _ Hown) as Hget.
  unfold stop_all_line, stopped_line, started. rewrite Hown. run_with Hget.
  reflexivity.
Qed.

Lemma started_delete_neq (o : Obj.object) k k' :
  k <> k' -> started (Obj.delete o k) k' = started o k'.
Proof. intros Hne. unfold started. now rewrite own_delete_neq. Qed.

Lemma mapM_stop_all_line e ks : forall s,
  NoDup ks ->
  (forall k, In k ks -> exists t, Obj.own (timers s) k = Some (Obj.Timer t)) ->
  mapM (stop_all_line e) ks s =
    (mkState (fold_left Obj.delete ks (timers s)) (reads s),
     Ok (map (stopped_line e (timers s)) ks)).
Proof.
  induction ks as [|k ks IH]; intros s Hnd Hks; cbn [mapM map fold_left].
  - now rewrite state_eta.
  - inversion Hnd as [|? ? Hk Hnd']; subst.
    destruct (Hks k (or_introl eq_refl)) as [t Ht].
    unfold bind at 1. rewrite (stop_all_line_record e k s t Ht).
    unfold bind at 1. rewrite IH; cbn [timers reads]; [|exact Hnd'|].
    + unfold ret. do 3 f_equal. apply map_ext_in. intros k' Hin.
      unfold stopped_line. rewrite started_delete_neq; [reflexivity|].
      intros ->. contradiction.
    + intros k' Hin. rewrite own_delete_neq by (intros ->; contradiction).
      apply Hks. now right.
Qed.

Lemma fold_delete_all ks : forall (o : Obj.object),
  (forall kv, In kv o -> In (fst kv) ks) -> fold_left Obj.delete ks o = [].
Proof.
  induction ks as [|k ks IH]; intros o Hall; cbn.
  - destruct o as [|kv o]; [reflexivity|]. destruct (Hall kv (or_introl eq_refl)).
  - apply IH. intros kv Hin. apply delete_incl in Hin as [Hin Hne].
    destruct (Hall kv Hin) as [E|Hin']; [congruence | exact Hin'].
Qed.

Lemma stop_all_timers_empty s :
  timers s = [] -> stop_all_timers s = (s, Ok "No timers are running.").
Proof. intros E. unfold stop_all_timers. run_handler. now rewrite E. Qed.

Lemma stop_all_timers_records s :
  timers s <> [] -> Obj.wf (timers s) -> all_records (timers s) ->
  let ks := Obj.keys (timers s) in
  let endTime := clock (reads s) in
  stop_all_timers s =
    (mkState [] (S (reads s)),
     Ok ("Stopped " ++ string_of_nat (List.length (timers s)) ++ " timer(s):" ++ nl
           ++ Js.join nl (map (stopped_line endTime (timers s)) ks))).
Proof.
  intros Hne Hwf Hrec ks endTime. unfold stop_all_timers. run_handler.
  fold ks endTime.
  destruct (Nat.eqb_spec (List.length ks) 0) as [E|_].
  { apply length_zero_iff_nil, keys_nil_iff in E. contradiction. }
  rewrite mapM_stop_all_line; cbn [timers reads].
  - rewrite fold_delete_all.
    + rewrite length_map. subst ks. rewrite keys_length. reflexivity.
    + intros kv Hin. apply keys_In. now apply in_map.
  - now apply keys_NoDup.
  - intros k Hin. apply own_record; [exact Hrec | now apply keys_In].
Qed.

End Branches.

(** ** The invariant of [timers] *)

Section Invariant.
Context `{Host}.

Lemma list_line_state now k s : fst (list_line now k s) = s.
Proof.
  unfold list_line.
  destruct (Obj.get (timers s) k) as [[t|n]|] eqn:E; run_with E; reflexivity.
Qed.

Lemma mapM_list_line_state now ks s : fst (mapM (list_line now) ks s) = s.
Proof.
  induction ks as [|k ks IH]; cbn [mapM]; [reflexivity|].
  unfold bind at 1. pose proof (list_line_state now k s) as E.
  destruct (list_line now k s) as [s1 [line|e]]; cbn in E; subst s1; [|reflexivity].
  unfold bind at 1. specialize IH.
  destruct (mapM (list_line now) ks s) as [s2 [lines|e]]; exact IH.
Qed.

Lemma stop_all_line_wf e k s :
  Obj.wf (timers s) -> Obj.wf (timers (fst (stop_all_line e k s))).
Proof.
  intros Hwf. unfold stop_all_line.
  destruct (Obj.get (timers s) k) as [[t|n]|] eqn:E; run_with E;
    try exact Hwf.
  now apply wf_delete.
Qed.

Lemma mapM_stop_all_line_wf e ks : forall s,
  Obj.wf (timers s) -> Obj.wf (timers (fst (mapM (stop_all_line e) ks s))).
Proof.
  induction ks as [|k ks IH]; intros s Hwf; cbn [mapM]; [exact Hwf|].
  unfold bind at 1. pose proof (stop_all_line_wf e k s Hwf) as Hwf1.
  destruct (stop_all_line e k s) as [s1 [line|ex]]; cbn [fst] in Hwf1; [|exact Hwf1].
  unfold bind at 1. specialize (IH s1 Hwf1).
  destruct (mapM (stop_all_line e) ks s1) as [s2 [lines|ex]]; exact IH.
Qed.

(** No handler breaks the invariant, whatever its arguments and whether it
    returns or throws. *)
Theorem handle_wf (c : call) (s : state) :
  Obj.wf (timers s) -> Obj.wf (timers (fst (handle c s))).
Proof.
  intros Hwf. destruct c as [l|l|l| | |a b|a b]; cbn [handle].
  - destruct (Obj.get (timers s) (resolveLabel l)) as [[t|n]|] eqn:E.
    + now rewrite (start_timer_running _ _ _ E).
    + now rewrite (start_timer_inherited _ _ _ E).
    + rewrite (start_timer_fresh _ _ E). cbn [fst timers].
      apply get_None_iff in E as E'. destruct E' as [Hown _].
      rewrite <- (set_fresh _ _ _ Hown). now apply wf_set_fresh.
  - destruct (Obj.get (timers s) (resolveLabel l)) as [[t|n]|] eqn:E.
    + now rewrite (current_timer_running _ _ _ E).
    + now rewrite (current_timer_inherited _ _ _ E).
    + now rewrite (current_timer_absent _ _ E).
  - destruct (Obj.get (timers s) (resolveLabel l)) as [[t|n]|] eqn:E.
    + rewrite (stop_timer_running _ _ _ E). now apply wf_delete.
    + rewrite (stop_timer_inherited _ _ _ E). now apply wf_delete.
    + now rewrite (stop_timer_absent _ _ E).
  - unfold list_timers. run_handler.
    destruct (List.length (Obj.keys (timers s)) =? 0)%nat; [exact Hwf|].
    match goal with
    | |- context [mapM (list_line ?now) ?ks ?s1] =>
        pose proof (mapM_list_line_state now ks s1) as E;
        destruct (mapM (list_line now) ks s1) as [s2 [lines|ex]]
    end; cbn in E; subst s2; exact Hwf.
  - unfold stop_all_timers. run_handler.
    destruct (List.length (Obj.keys (timers s)) =? 0)%nat; [exact Hwf|].
    match goal with
    | |- context [mapM (stop_all_line ?e) ?ks ?s1] =>
        pose proof (mapM_stop_all_line_wf e ks s1 Hwf) as Hwf1;
        destruct (mapM (stop_all_line e) ks s1) as [s2 [lines|ex]]
    end; exact Hwf1.
  - destruct (Obj.get (timers s) (resolveLabel a)) as [v|] eqn:Ea.
    + destruct (Obj.get (timers s) b) as [w|] eqn:Eb.
      * now rewrite (rename_timer_rejected _ _ _ _ _ Ea Eb).
      * rewrite (rename_timer_moved _ _ _ _ Ea Eb).
        apply wf_delete. now apply wf_set_fresh.
    + now rewrite (rename_timer_absent _ _ _ Ea).
  - rewrite switch_timer_unfold.
    set (o1 := match Obj.get (timers s) (resolveLabel a) with
               | Some _ => Obj.delete (timers s) (resolveLabel a)
               | None => timers s
               end).
    assert (Hwf1 : Obj.wf o1).
    { subst o1. destruct (Obj.get (timers s) (resolveLabel a));
        [now apply wf_delete | exact Hwf]. }
    destruct (Obj.get o1 b) as [[t|n]|] eqn:E; cbn [fst timers]; try exact Hwf1.
    now apply wf_set_fresh.
Qed.

(** Hence every state the server can reach from its start satisfies it. *)
Theorem run_wf (cs : list call) : forall s,
  Obj.wf (timers s) -> Obj.wf (timers (fst (run cs s))).
Proof.
  induction cs as [|c cs IH]; intros s Hwf; cbn [run]; [exact Hwf|].
  pose proof (handle_wf c s Hwf) as Hwf1.
  destruct (handle c s) as [s1 r]. cbn [fst] in Hwf1.
  specialize (IH s1 Hwf1). destruct (run cs s1) as [s2 rs]. exact IH.
Qed.

End Invariant.

(** ** Labels outside [Object.prototype]: what the handlers do there *)

Section FreshLabels.
Context `{Host}.

Lemma resolveLabel_valid (L : string) :
  valid_label L = true -> resolveLabel (Some L) = L.
Proof. destruct L; [discriminate | reflexivity]. Qed.

Lemma resolveLabel_nonempty (label : option string) :
  resolveLabel label <> EmptyString.
Proof. destruct label as [[|c l]|]; discriminate. Qed.

(** A second [start_timer] on a label the first one created reports the
    first start time and changes nothing, not even the clock. *)
Lemma start_timer_twice (label : option string) (s : state) :
  Obj.get (timers s) (resolveLabel label) = None ->
  let name := resolveLabel label in
  let now := clock (reads s) in
  let s1 := fst (start_timer label s) in
  timers s1 = (timers s ++ [(name, Obj.Timer now)])%list
  /\ Obj.own (timers s1) name = Some (Obj.Timer now)
  /\ start_timer label s1 =
       (s1, Ok ("Timer " ++ quoted name ++ " is already running (started at "
                  ++ toLocaleTimeString now ++ ").")).
Proof.
  intros Hget name now s1. subst s1. rewrite (start_timer_fresh _ _ Hget).
  cbn [fst timers]. fold name now.
  apply get_None_iff in Hget as [Hown _].
  assert (E : Obj.own (timers s ++ [(name, Obj.Timer now)])%list name
              = Some (Obj.Timer now)).
  { rewrite <- (set_fresh _ _ _ Hown). apply own_set_eq. }
  repeat split; [exact E|].
  apply start_timer_running. cbn [timers]. now apply get_own.
Qed.

(** [rename_timer] to a label that is neither running nor a name of
    [Object.prototype] moves the record. *)
Lemma rename_timer_fresh (s : state) (L1 L2 : string) (t : Z) :
  valid_label L1 = true -> valid_label L2 = true -> Obj.wf (timers s) ->
  Obj.own (timers s) L1 = Some (Obj.Timer t) ->
  Obj.get (timers s) L2 = None ->
  let s' := fst (rename_timer (Some L1) L2 s) in
  timers s' = (Obj.delete (timers s) L1 ++ [(L2, Obj.Timer t)])%list
  /\ Obj.own (timers s') L1 = None
  /\ Obj.own (timers s') L2 = Some (Obj.Timer t)
  /\ current_timer (Some L1) s' =
       (s', Ok ("No timer named " ++ quoted L1 ++ " is running."))
  /\ snd (current_timer (Some L2) s') =
       Ok ("Timer " ++ quoted L2 ++ " is running." ++ nl
             ++ "Started:  " ++ toLocaleTimeString t ++ nl
             ++ "Elapsed:  " ++ formatElapsed (Js.Num (clock (reads s') - t))).
Proof.
  intros Hv Hv2 Hwf H1 H2 s'. pose proof (resolveLabel_valid _ Hv) as HL1.
  pose proof (resolveLabel_valid _ Hv2) as HL2.
  pose proof (wf_own_not_inherited _ _ _ Hwf H1) as Hinh.
  assert (Hne : L2 <> L1).
  { intros ->. apply get_None_iff in H2 as [H2 _]. congruence. }
  subst s'. rewrite (rename_timer_moved (Some L1) L2 s (Obj.Timer t));
    [|rewrite HL1; now apply get_own | exact H2].
  cbn [fst timers]. rewrite HL1.
  pose proof H2 as H2'. apply get_None_iff in H2' as [Hown2 Hinh2].
  assert (Eo : Obj.delete (Obj.set (timers s) L2 (Obj.Timer t)) L1
               = (Obj.delete (timers s) L1 ++ [(L2, Obj.Timer t)])%list).
  { rewrite set_fresh by exact Hown2. unfold Obj.delete.
    rewrite filter_app. cbn.
    destruct (String.eqb_spec L2 L1); [contradiction | reflexivity]. }
  assert (E1 : Obj.own (Obj.delete (Obj.set (timers s) L2 (Obj.Timer t)) L1) L1
               = None) by apply own_delete_eq.
  assert (E2 : Obj.own (Obj.delete (Obj.set (timers s) L2 (Obj.Timer t)) L1) L2
               = Some (Obj.Timer t)).
  { rewrite own_delete_neq by congruence. apply own_set_eq. }
  split; [exact Eo|]. split; [exact E1|]. split; [exact E2|]. split.
  - rewrite (current_timer_absent (Some L1)); rewrite HL1; [reflexivity|].
    cbn [timers]. now apply get_absent.
  - rewrite (current_timer_running (Some L2) _ t); rewrite HL2;
      [reflexivity|]. cbn [timers]. now apply get_own.
Qed.

(** [switch_timer] from a running label to a label that is neither running
    nor a name of [Object.prototype]: one clock reading serves as the end
    of the one and the start of the other. *)
Lemma switch_timer_fresh (s : state) (L1 L2 : string) (t : Z) :
  valid_label L1 = true ->
  Obj.own (timers s) L1 = Some (Obj.Timer t) ->
  Obj.get (timers s) L2 = None ->
  let now := clock (reads s) in
  let o' := (Obj.delete (timers s) L1 ++ [(L2, Obj.Timer now)])%list in
  switch_timer (Some L1) L2 s =
    (mkState o' (S (reads s)),
     Ok (("Stopped " ++ quoted L1 ++ " ("
            ++ formatElapsed (Js.Num (now - t)) ++ ")." ++ nl)
           ++ "Started " ++ quoted L2 ++ " at " ++ toLocaleTimeString now ++ "."))
  /\ Obj.own o' L1 = None
  /\ Obj.own o' L2 = Some (Obj.Timer now).
Proof.
  intros Hv H1 H2 now o'. pose proof (resolveLabel_valid _ Hv) as HL1.
  pose proof H2 as H2'. apply get_None_iff in H2' as [Hown2 Hinh2].
  assert (Hne : L1 <> L2) by congruence.
  assert (Hd : Obj.own (Obj.delete (timers s) L1) L2 = None)
    by (now rewrite own_delete_neq).
  assert (Eo : Obj.set (Obj.delete (timers s) L1) L2 (Obj.Timer now) = o')
    by (now rewrite set_fresh).
  rewrite switch_timer_unfold. cbv zeta. rewrite HL1, (get_own _ _ _ H1).
  rewrite (get_absent _ _ Hd Hinh2). fold now. rewrite Eo.
  cbn [Obj.startTime_of since].
  split; [reflexivity|]. rewrite <- Eo. split.
  - rewrite own_set_neq by congruence. apply own_delete_eq.
  - apply own_set_eq.
Qed.

End FreshLabels.

(** ** Where the handlers cannot raise *)

Section OwnLookups.
Context `{Host}.

(** The only labels the schema accepts that [Object.prototype] defines. *)
Lemma valid_inherited (k : string) :
  valid_label k = true -> Obj.inherited k = true ->
  k = "constructor" \/ k = "__proto__".
Proof.
  intros Hv Hi. unfold Obj.inherited, Obj.prototype_names in Hi.
  cbn [existsb] in Hi.
  repeat match type of Hi with
         | (String.eqb k ?n || _)%bool = true =>
             destruct (String.eqb_spec k n) as [->|_];
             [ first [ now left | now right | discriminate Hv ] | cbn [orb] in Hi ]
         end.
  discriminate.
Qed.

Lemma default_not_inherited (label : option string) :
  valid_optional_label label = true ->
  resolveLabel label <> "constructor" -> resolveLabel label <> "__proto__" ->
  Obj.inherited (resolveLabel label) = false.
Proof.
  intros Hv Hc Hp. destruct label as [l|]; [|reflexivity].
  cbn in Hv. rewrite (resolveLabel_valid _ Hv) in *.
  destruct (Obj.inherited l) eqn:E; [|reflexivity].
  destruct (valid_inherited l Hv E); contradiction.
Qed.

Lemma get_not_inherited (o : Obj.object) (k : string) :
  Obj.inherited k = false -> Obj.get o k = Obj.own o k.
Proof. unfold Obj.get. intros ->. now destruct (Obj.own o k). Qed.

Lemma own_is_record (o : Obj.object) (k : string) (v : Obj.value) :
  all_records o -> Obj.own o k = Some v -> exists t, v = Obj.Timer t.
Proof.
  intros Hrec Hown. apply own_Some_in in Hown. unfold all_records in Hrec.
  rewrite Forall_forall in Hrec. exact (Hrec _ Hown).
Qed.

Lemma all_records_delete (o : Obj.object) (k : string) :
  all_records o -> all_records (Obj.delete o k).
Proof.
  unfold all_records. rewrite !Forall_forall. intros Hrec kv Hin.
  apply delete_incl in Hin as [Hin _]. now apply Hrec.
Qed.

Lemma all_records_set (o : Obj.object) (k : string) (t : Z) :
  all_records o -> all_records (Obj.set o k (Obj.Timer t)).
Proof.
  unfold all_records. induction 1 as [|[k' v'] o Hv Ho IH]; cbn.
  - repeat constructor. now exists t.
  - destruct (String.eqb k' k); constructor; try assumption. now exists t.
Qed.

Lemma empty_or_not (o : Obj.object) : o = [] \/ o <> [].
Proof. destruct o; [now left | now right]. Qed.

(** On a registry of timer records, a call that looks up no name of
    [Object.prototype] returns a message and leaves a registry of timer
    records. *)
Theorem handle_returns_text (c : call) (s : state) :
  Obj.wf (timers s) -> all_records (timers s) -> own_lookups_only c ->
  (exists text, snd (handle c s) = Ok text)
  /\ all_records (timers (fst (handle c s))).
Proof.
  intros Hwf Hrec Hown. unfold own_lookups_only in Hown.
  destruct c as [l|l|l| | |a b|a b]; cbn [handle call_labels] in *.
  - inversion Hown as [|? ? Hl _]; subst.
    pose proof (get_not_inherited (timers s) _ Hl) as Eg.
    destruct (Obj.own (timers s) (resolveLabel l)) as [v|] eqn:E.
    + destruct (own_is_record _ _ _ Hrec E) as [t ->].
      rewrite (start_timer_running _ _ _ Eg). split; [eexists; reflexivity | exact Hrec].
    + rewrite (start_timer_fresh _ _ Eg). cbn [fst snd timers].
      split; [eexists; reflexivity|]. rewrite <- (set_fresh _ _ _ E).
      now apply all_records_set.
  - inversion Hown as [|? ? Hl _]; subst.
    pose proof (get_not_inherited (timers s) _ Hl) as Eg.
    destruct (Obj.own (timers s) (resolveLabel l)) as [v|] eqn:E.
    + destruct (own_is_record _ _ _ Hrec E) as [t ->].
      rewrite (current_timer_running _ _ _ Eg). split; [eexists; reflexivity | exact Hrec].
    + rewrite (current_timer_absent _ _ Eg). split; [eexists; reflexivity | exact Hrec].
  - inversion Hown as [|? ? Hl _]; subst.
    pose proof (get_not_inherited (timers s) _ Hl) as Eg.
    destruct (Obj.own (timers s) (resolveLabel l)) as [v|] eqn:E.
    + destruct (own_is_record _ _ _ Hrec E) as [t ->].
      rewrite (stop_timer_running _ _ _ Eg).
      split; [eexists; reflexivity | now apply all_records_delete].
    + rewrite (stop_timer_absent _ _ Eg). split; [eexists; reflexivity | exact Hrec].
  - destruct (empty_or_not (timers s)) as [E|E].
    + rewrite (list_timers_empty _ E). split; [eexists; reflexivity | exact Hrec].
    + rewrite (list_timers_records _ E Hrec).
      split; [eexists; reflexivity | exact Hrec].
  - destruct (empty_or_not (timers s)) as [E|E].
    + rewrite (stop_all_timers_empty _ E). split; [eexists; reflexivity | exact Hrec].
    + rewrite (stop_all_timers_records _ E Hwf Hrec).
      split; [eexists; reflexivity | constructor].
  - inversion Hown as [|? ? Ha Hown']; subst.
    inversion Hown' as [|? ? Hb _]; subst.
    pose proof (get_not_inherited (timers s) _ Ha) as Ega.
    pose proof (get_not_inherited (timers s) _ Hb) as Egb.
    destruct (Obj.own (timers s) (resolveLabel a)) as [v|] eqn:Ea.
    + destruct (own_is_record _ _ _ Hrec Ea) as [t ->].
      destruct (Obj.own (timers s) b) as [w|] eqn:Eb.
      * rewrite (rename_timer_rejected _ _ _ _ _ Ega Egb).
        split; [eexists; reflexivity | exact Hrec].
      * rewrite (rename_timer_moved _ _ _ _ Ega Egb).
        split; [eexists; reflexivity|]. now apply all_records_delete, all_records_set.
    + rewrite (rename_timer_absent _ _ _ Ega). split; [eexists; reflexivity | exact Hrec].
  - inversion Hown as [|? ? Ha Hown']; subst.
    inversion Hown' as [|? ? Hb _]; subst.
    rewrite switch_timer_unfold. cbv zeta.
    set (o1 := match Obj.get (timers s) (resolveLabel a) with
               | Some _ => Obj.delete (timers s) (resolveLabel a)
               | None => timers s
               end).
    assert (Hrec1 : all_records o1).
    { subst o1. destruct (Obj.get (timers s) (resolveLabel a));
        [now apply all_records_delete | exact Hrec]. }
    rewrite (get_not_inherited o1 _ Hb).
    destruct (Obj.own o1 b) as [w|] eqn:Eb.
    + destruct (own_is_record _ _ _ Hrec1 Eb) as [t ->].
      split; [eexists; reflexivity | exact Hrec1].
    + split; [eexists; reflexivity | now apply all_records_set].
Qed.

End OwnLookups.

(** ** The claims about the handlers *)

Section Claims.
Context `{Host}.

(** C1: "every operation, on arguments that pass the label pattern,
    returns a text message and never raises".  The code does not keep
    this: [timers] inherits from [Object.prototype], so the valid label
    "constructor" reads as a running timer that has no [startTime], and
    [start_timer], [current_timer], [stop_timer] and [switch_timer] raise a
    [TypeError] on it in the empty registry; [rename_timer] copies the
    inherited value under a new label, after which [list_timers] and
    [stop_all_timers] raise as well. *)
Theorem valid_call_raises_TypeError :
  valid_call (StartTimer (Some "constructor")) = true
  /\ handle (StartTimer (Some "constructor")) initial = (initial, Throw TypeError)
  /\ snd (handle (CurrentTimer (Some "constructor")) initial) = Throw TypeError
  /\ snd (handle (StopTimer (Some "constructor")) initial) = Throw TypeError
  /\ valid_call (SwitchTimer None "constructor") = true
  /\ snd (handle (SwitchTimer None "constructor") initial) = Throw TypeError
  /\ valid_call (RenameTimer (Some "constructor") "x") = true
  /\ (let s := fst (handle (RenameTimer (Some "constructor") "x") initial) in
      timers s = [("x", Obj.Inherited "constructor")]
      /\ snd (handle ListTimers s) = Throw TypeError
      /\ snd (handle StopAllTimers s) = Throw TypeError)
  /\ valid_call (StartTimer (Some "__proto__")) = true
  /\ handle (StartTimer (Some "__proto__")) initial = (initial, Throw TypeError).
Proof. repeat split. Qed.

(** C4, as amended: on a non-empty registry of timer records,
    [list_timers] reads the clock once, leaves the registry as it was and
    returns one line per timer, every elapsed time taken against that one
    reading; the lines follow the order of [Object.keys]: labels that are
    array indices first, by ascending value, then the other labels in
    insertion order, which is the insertion order of all of them where no
    label is an array index. *)
Theorem list_timers_own_key_order (s : state)
  (Hne : timers s <> []) (Hrec : all_records (timers s)) :
  let now := clock (reads s) in
  let ks := Obj.keys (timers s) in
  list_timers s =
    (mkState (timers s) (S (reads s)), Ok (listing now (timers s) ks))
  /\ Permutation ks (map fst (timers s))
  /\ List.length ks = List.length (timers s)
  /\ own_key_order ks (map fst (timers s))
  /\ (Forall (fun k => Obj.is_index k = false) (map fst (timers s)) ->
      listing now (timers s) ks = spec_listing now (timers s)).
Proof.
  intros now ks. split; [now apply list_timers_records|].
  split; [apply keys_perm|]. split; [apply keys_length|].
  split; [apply keys_order|].
  intros Hn. unfold spec_listing. subst ks. now rewrite keys_insertion_order.
Qed.

(** C5: "switch_timer(stop=L1, start=L2) with L1 running and L2 not
    running leaves L1 absent and L2 present, started at the call's
    timestamp".  The code does not keep this for L2 = "constructor": with
    "a" running, the call removes "a", then takes the inherited
    [timers["constructor"]] for a running timer and raises a [TypeError];
    no timer is started. *)
Theorem switch_timer_to_constructor_raises (t0 : Z) (n : nat) :
  let s := mkState [("a", Obj.Timer t0)] n in
  valid_call (SwitchTimer (Some "a") "constructor") = true
  /\ Obj.own (timers s) "a" = Some (Obj.Timer t0)
  /\ Obj.own (timers s) "constructor" = None
  /\ switch_timer (Some "a") "constructor" s = (mkState [] (S n), Throw TypeError).
Proof. repeat split. Qed.

(** C6: "rename_timer(from=L1, to=L2) with L1 running and L2 a valid label
    not in the registry moves the entry".  The code does not keep this for
    L2 = "constructor": the inherited [timers["constructor"]] is truthy,
    the call answers that "constructor" is already running and moves
    nothing, so "a" is still running afterwards. *)
Theorem rename_timer_to_constructor_rejected (t0 : Z) (n : nat) :
  let s := mkState [("a", Obj.Timer t0)] n in
  valid_call (RenameTimer (Some "a") "constructor") = true
  /\ Obj.own (timers s) "constructor" = None
  /\ rename_timer (Some "a") "constructor" s =
       (s, Ok ("A timer named " ++ quoted "constructor"
                 ++ " is already running. Stop it first or choose a different name."))
  /\ snd (current_timer (Some "a") s) =
       Ok ("Timer " ++ quoted "a" ++ " is running." ++ nl
             ++ "Started:  " ++ toLocaleTimeString t0 ++ nl
             ++ "Elapsed:  " ++ formatElapsed (Js.Num (clock n - t0)))
  /\ snd (current_timer (Some "constructor") s) = Throw TypeError.
Proof. repeat split. Qed.

(** C7: whenever the target label [to] of [rename_timer] is in the
    registry, the call returns a refusal and the registry is unchanged: the
    "already running" rejection when [from] is running too, the "no timer
    named" message otherwise; every entry keeps its start time. *)
Theorem rename_timer_existing_target
  (s : state) (from : option string) (to : string) (w : Obj.value)
  (Hto : Obj.own (timers s) to = Some w) :
  let rejection :=
    "A timer named " ++ quoted to
      ++ " is already running. Stop it first or choose a different name." in
  let missing :=
    "No timer named " ++ quoted (resolveLabel from) ++ " is running." in
  (rename_timer from to s = (s, Ok rejection)
   \/ rename_timer from to s = (s, Ok missing))
  /\ (forall v, Obj.own (timers s) (resolveLabel from) = Some v ->
      rename_timer from to s = (s, Ok rejection))
  /\ fst (rename_timer from to s) = s
  /\ (forall k, Obj.own (timers (fst (rename_timer from to s))) k
                = Obj.own (timers s) k).
Proof.
  intros rejection missing. pose proof (get_own _ _ _ Hto) as Hget.
  assert (Hcases : rename_timer from to s = (s, Ok rejection)
                   \/ rename_timer from to s = (s, Ok missing)).
  { destruct (Obj.get (timers s) (resolveLabel from)) as [v|] eqn:E.
    - left. exact (rename_timer_rejected _ _ _ _ _ E Hget).
    - right. exact (rename_timer_absent _ _ _ E). }
  split; [exact Hcases|]. split; [|split].
  - intros v Hv. exact (rename_timer_rejected _ _ _ _ _ (get_own _ _ _ Hv) Hget).
  - now destruct Hcases as [-> | ->].
  - intros k. now destruct Hcases as [-> | ->].
Qed.

(** C8: "calling start_timer(L) twice in a row leaves exactly one entry
    for L, with the first start time".  The code does not keep this for
    L = "constructor": both calls raise a [TypeError] and no entry is
    made. *)
Theorem start_timer_twice_constructor_raises :
  valid_call (StartTimer (Some "constructor")) = true
  /\ run [StartTimer (Some "constructor"); StartTimer (Some "constructor")]
         initial
     = (initial, [Throw TypeError; Throw TypeError]).
Proof. repeat split. Qed.

Lemma start_timer_inserts (label : option string) (s : state) :
  timers (fst (start_timer label s)) <> timers s ->
  Obj.get (timers s) (resolveLabel label) = None.
Proof.
  intros Hins.
  destruct (Obj.get (timers s) (resolveLabel label)) as [[t|n]|] eqn:E.
  - rewrite (start_timer_running _ _ _ E) in Hins. now contradiction Hins.
  - rewrite (start_timer_inherited _ _ _ E) in Hins. now contradiction Hins.
  - reflexivity.
Qed.

(** C9: [start_timer] inserts an entry exactly when the lookup of the
    label is undefined; such a call appends one record stamped with its
    clock reading, and its message carries the warning, which lists every
    running label, exactly when the registry then holds at least 3
    entries; starting "a", "b", "c" from the empty registry gives the
    warning on the third call only, listing "a", "b", "c". *)
Theorem start_timer_warning (label : option string) (s : state) :
  let name := resolveLabel label in
  let now := clock (reads s) in
  let o' := (timers s ++ [(name, Obj.Timer now)])%list in
  let text :=
    "Timer " ++ quoted name ++ " started at " ++ toLocaleTimeString now ++ "." in
  (timers (fst (start_timer label s)) <> timers s
   <-> Obj.get (timers s) name = None)
  /\ (Obj.get (timers s) name = None ->
      start_timer label s =
        (mkState o' (S (reads s)),
         Ok (if (3 <=? List.length o')%nat then text ++ heads_up o' else text))
      /\ Permutation (Obj.keys o') (map fst o')
      /\ ((3 <= List.length o')%nat ->
          snd (start_timer label s) = Ok (text ++ heads_up o'))
      /\ ((List.length o' < 3)%nat -> snd (start_timer label s) = Ok text))
  /\ run [StartTimer (Some "a"); StartTimer (Some "b"); StartTimer (Some "c")]
         initial
     = (mkState [("a", Obj.Timer (clock 0)); ("b", Obj.Timer (clock 1));
                 ("c", Obj.Timer (clock 2))] 3,
        [Ok ("Timer " ++ quoted "a" ++ " started at "
               ++ toLocaleTimeString (clock 0) ++ ".");
         Ok ("Timer " ++ quoted "b" ++ " started at "
               ++ toLocaleTimeString (clock 1) ++ ".");
         Ok (("Timer " ++ quoted "c" ++ " started at "
                ++ toLocaleTimeString (clock 2) ++ ".")
               ++ nl ++ nl ++ "Heads up: you now have 3 timers running ("
               ++ quoted "a" ++ ", " ++ quoted "b" ++ ", " ++ quoted "c"
               ++ "). Did you forget to stop one?")]).
Proof.
  intros name now o' text. split; [split|split].
  - apply start_timer_inserts.
  - intros Hfree. rewrite (start_timer_fresh _ _ Hfree). cbn [fst timers].
    intros E. apply (f_equal (@List.length _)) in E.
    rewrite length_app in E. cbn in E. lia.
  - intros Hfree. rewrite (start_timer_fresh _ _ Hfree).
    fold name now o' text. cbn [snd].
    split; [reflexivity|]. split; [apply keys_perm|]. split.
    + intros Hle. apply Nat.leb_le in Hle. now rewrite Hle.
    + intros Hlt. apply Nat.leb_gt in Hlt. now rewrite Hlt.
  - reflexivity.
Qed.

(** C10: for a running label L, [switch_timer(stop=L, start=L)] removes L,
    reporting the time elapsed up to the one clock reading of the call, and
    inserts L again with that reading as its start time: the timer is
    restarted, not refused as already running. *)
Theorem switch_timer_same_label (s : state) (L : string) (v : Obj.value)
  (Hvalid : valid_label L = true) (Hwf : Obj.wf (timers s))
  (Hrun : Obj.own (timers s) L = Some v) :
  let now := clock (reads s) in
  let o' := (Obj.delete (timers s) L ++ [(L, Obj.Timer now)])%list in
  switch_timer (Some L) L s =
    (mkState o' (S (reads s)),
     Ok (("Stopped " ++ quoted L ++ " ("
            ++ formatElapsed (since now (Obj.startTime_of v)) ++ ")." ++ nl)
           ++ "Started " ++ quoted L ++ " at " ++ toLocaleTimeString now ++ "."))
  /\ (forall t, v = Obj.Timer t ->
      since now (Obj.startTime_of v) = Js.Num (now - t))
  /\ Obj.own o' L = Some (Obj.Timer now)
  /\ Obj.get o' L = Some (Obj.Timer now)
  /\ (forall k, k <> L -> Obj.own o' k = Obj.own (timers s) k).
Proof.
  intros now o'. pose proof (resolveLabel_valid _ Hvalid) as HL.
  pose proof (wf_own_not_inherited _ _ _ Hwf Hrun) as Hinh.
  pose proof (own_delete_eq (timers s) L) as Hd.
  assert (Eo : Obj.set (Obj.delete (timers s) L) L (Obj.Timer now) = o')
    by (now rewrite set_fresh).
  rewrite switch_timer_unfold. cbv zeta. rewrite HL, (get_own _ _ _ Hrun).
  rewrite (get_absent _ _ Hd Hinh). fold now. rewrite Eo.
  split; [reflexivity|]. split; [now intros t ->|]. rewrite <- Eo.
  split; [apply own_set_eq|]. split.
  - apply get_own, own_set_eq.
  - intros k Hk. rewrite own_set_neq by congruence.
    apply own_delete_neq. congruence.
Qed.

End Claims.

(** ** Concrete runs *)

(** C4 as stated fails where a label is an array index: after starting "b"
    and then "1", the listing names "1" first, not in insertion order. *)
Lemma list_timers_insertion_order_counterexample :
  let s := fst (run (H := sample_host)
                  [StartTimer (Some "b"); StartTimer (Some "1")] initial) in
  timers s <> []
  /\ map fst (timers s) = ["b"; "1"]
  /\ Obj.keys (timers s) = ["1"; "b"]
  /\ snd (list_timers (H := sample_host) s)
     = Ok ("Running timers (2):" ++ nl
             ++ "- " ++ quoted "1" ++ "  started 1s  (1s)" ++ nl
             ++ "- " ++ quoted "b" ++ "  started 0s  (2s)")
  /\ snd (list_timers (H := sample_host) s)
     <> Ok (spec_listing (H := sample_host) (@clock sample_host (reads s))
              (timers s)).
Proof.
  cbv zeta. split; [vm_compute; discriminate|].
  split; [reflexivity|]. split; [reflexivity|]. split; [reflexivity|].
  vm_compute. discriminate.
Qed.

(** C3 at 3661000 ms: one hour, one minute, one second. *)
Lemma formatElapsed_spec_witness :
  0 <= 3661000
  /\ formatElapsed (Js.Num 3661000) = spec_formatElapsed 3661000.
Proof.
  split; [lia|].
  apply (formatElapsed_spec 3661000). lia.
Defined.

(** C4, amended, on the registry holding "b" then "1". *)
Lemma list_timers_own_key_order_witness :
  let s := mkState [("b", Obj.Timer 0); ("1", Obj.Timer 1000)] 2 in
  timers s <> [] /\ all_records (timers s)
  /\ list_timers (H := sample_host) s =
       (mkState (timers s) 3,
        Ok (listing (H := sample_host) 2000 (timers s) ["1"; "b"])).
Proof.
  cbv zeta.
  assert (Hne : timers (mkState [("b", Obj.Timer 0); ("1", Obj.Timer 1000)] 2)
                <> []) by discriminate.
  assert (Hrec : all_records
                   (timers (mkState [("b", Obj.Timer 0); ("1", Obj.Timer 1000)] 2))).
  { repeat constructor; eexists; reflexivity. }
  split; [exact Hne|]. split; [exact Hrec|].
  exact (proj1 (list_timers_own_key_order (H := sample_host) _ Hne Hrec)).
Defined.

(** C7 on the registry holding "a" and "b": renaming "a" to "b" is
    refused. *)
Lemma rename_timer_existing_target_witness :
  let s := mkState [("a", Obj.Timer 0); ("b", Obj.Timer 1000)] 2 in
  Obj.own (timers s) "b" = Some (Obj.Timer 1000)
  /\ forall k, Obj.own
                 (timers (fst (rename_timer (Some "a") "b" s))) k
               = Obj.own (timers s) k.
Proof.
  cbv zeta. split; [reflexivity|].
  apply (rename_timer_existing_target
           (mkState [("a", Obj.Timer 0); ("b", Obj.Timer 1000)] 2)
           (Some "a") "b" (Obj.Timer 1000) eq_refl).
Defined.

(** C9 on the third insertion: "c" started beside "a" and "b", with the
    warning. *)
Lemma start_timer_warning_witness :
  let s := mkState [("a", Obj.Timer 0); ("b", Obj.Timer 1000)] 2 in
  Obj.get (timers s) (resolveLabel (Some "c")) = None
  /\ start_timer (H := sample_host) (Some "c") s =
       (mkState [("a", Obj.Timer 0); ("b", Obj.Timer 1000);
                 ("c", Obj.Timer 2000)] 3,
        Ok (("Timer " ++ quoted "c" ++ " started at 2s.")
              ++ nl ++ nl ++ "Heads up: you now have 3 timers running ("
              ++ quoted "a" ++ ", " ++ quoted "b" ++ ", " ++ quoted "c"
              ++ "). Did you forget to stop one?")).
Proof.
  cbv zeta. split; [reflexivity|].
  exact (proj1 (proj1 (proj2 (start_timer_warning (H := sample_host) (Some "c")
                                (mkState [("a", Obj.Timer 0);
                                          ("b", Obj.Timer 1000)] 2)))
                  eq_refl)).
Defined.

(** C10 on the registry holding "a" alone, at the second clock reading. *)
Lemma switch_timer_same_label_witness :
  let s := mkState [("a", Obj.Timer 0)] 1 in
  valid_label "a" = true /\ Obj.wf (timers s)
  /\ Obj.own (timers s) "a" = Some (Obj.Timer 0)
  /\ switch_timer (H := sample_host) (Some "a") "a" s =
       (mkState [("a", Obj.Timer 1000)] 2,
        Ok (("Stopped " ++ quoted "a" ++ " (1s)." ++ nl)
              ++ "Started " ++ quoted "a" ++ " at 1s.")).
Proof.
  cbv zeta.
  assert (Hwf : Obj.wf (timers (mkState [("a", Obj.Timer 0)] 1))).
  { split; repeat constructor. intros []. }
  split; [reflexivity|]. split; [exact Hwf|]. split; [reflexivity|].
  exact (proj1 (switch_timer_same_label (H := sample_host)
                  (mkState [("a", Obj.Timer 0)] 1) "a" (Obj.Timer 0)
                  eq_refl Hwf eq_refl)).
Defined.

(** * Further properties of the handlers *)

(** ** What one call can do to the registry and to the clock *)

Section Footprint.
Context `{Host}.

Lemma stop_all_line_shape e k s :
  fst (stop_all_line e k s) = s
  \/ fst (stop_all_line e k s) = mkState (Obj.delete (timers s) k) (reads s).
Proof.
  unfold stop_all_line.
  destruct (Obj.get (timers s) k) as [[t|n]|] eqn:E; run_with E;
    [right | left | left]; reflexivity.
Qed.

Lemma mapM_stop_all_line_shape e ks : forall s,
  reads (fst (mapM (stop_all_line e) ks s)) = reads s
  /\ incl (timers (fst (mapM (stop_all_line e) ks s))) (timers s).
Proof.
  induction ks as [|k ks IH]; intros s; cbn [mapM].
  - split; [reflexivity | apply incl_refl].
  - pose proof (stop_all_line_shape e k s) as Hk.
    assert (Hs1 : reads (fst (stop_all_line e k s)) = reads s
                  /\ incl (timers (fst (stop_all_line e k s))) (timers s)).
    { destruct Hk as [-> | ->]; cbn [timers reads];
        (split; [reflexivity|]); [apply incl_refl|].
      intros kv Hin. now apply delete_incl in Hin. }
    clear Hk. unfold bind, ret.
    destruct (stop_all_line e k s) as [s1 [line|ex]]; cbn [fst] in Hs1;
      [|exact Hs1].
    destruct (IH s1) as [Hr Hi], Hs1 as [Hr1 Hi1].
    destruct (mapM (stop_all_line e) ks s1) as [s2 [lines|ex]];
      cbn [fst] in *; (split; [congruence | eapply incl_tran; eassumption]).
Qed.

(** After a call, the clock has been read at most once more, and every
    entry of the registry was there before, or sits at a label of the call
    and is either a record stamped with the reading of this call or a value
    the call read from the registry. *)
Lemma handle_footprint (c : call) (s : state) :
  let s' := fst (handle c s) in
  (reads s' = reads s \/ reads s' = S (reads s))
  /\ forall kv, In kv (timers s') ->
       In kv (timers s)
       \/ (In (fst kv) (call_labels c)
           /\ ((snd kv = Obj.Timer (clock (reads s)) /\ reads s' = S (reads s))
               \/ exists k', Obj.get (timers s) k' = Some (snd kv))).
Proof.
  destruct c as [l|l|l| | |a b|a b]; cbn [handle call_labels]; cbv zeta.
  - destruct (Obj.get (timers s) (resolveLabel l)) as [[t|n]|] eqn:E.
    + rewrite (start_timer_running _ _ _ E). cbn [fst]. auto.
    + rewrite (start_timer_inherited _ _ _ E). cbn [fst]. auto.
    + rewrite (start_timer_fresh _ _ E). cbn [fst timers reads].
      split; [now right|]. intros kv Hin. apply in_app_or in Hin as [Hin|[<-|[]]].
      * now left.
      * right. cbn. auto.
  - destruct (Obj.get (timers s) (resolveLabel l)) as [[t|n]|] eqn:E.
    + rewrite (current_timer_running _ _ _ E). cbn [fst timers reads]. auto.
    + rewrite (current_timer_inherited _ _ _ E). cbn [fst timers reads]. auto.
    + rewrite (current_timer_absent _ _ E). cbn [fst]. auto.
  - destruct (Obj.get (timers s) (resolveLabel l)) as [[t|n]|] eqn:E.
    + rewrite (stop_timer_running _ _ _ E). cbn [fst timers reads].
      split; [now right|]. intros kv Hin. left. now apply delete_incl in Hin.
    + rewrite (stop_timer_inherited _ _ _ E). cbn [fst timers reads].
      split; [now right|]. intros kv Hin. left. now apply delete_incl in Hin.
    + rewrite (stop_timer_absent _ _ E). cbn [fst]. auto.
  - unfold list_timers. run_handler.
    destruct (List.length (Obj.keys (timers s)) =? 0)%nat; [cbn [fst]; auto|].
    match goal with
    | |- context [mapM (list_line ?now) ?ks ?s1] =>
        pose proof (mapM_list_line_state now ks s1) as E;
        destruct (mapM (list_line now) ks s1) as [s2 [lines|ex]]
    end; cbn [fst] in *; subst s2; cbn [timers reads]; auto.
  - unfold stop_all_timers. run_handler.
    destruct (List.length (Obj.keys (timers s)) =? 0)%nat; [cbn [fst]; auto|].
    match goal with
    | |- context [mapM (stop_all_line ?e) ?ks ?s1] =>
        destruct (mapM_stop_all_line_shape e ks s1) as [Hr Hi];
        destruct (mapM (stop_all_line e) ks s1) as [s2 [lines|ex]]
    end; cbn [fst timers reads] in *; (split; [now right|]);
      intros kv Hin; left; now apply Hi.
  - destruct (Obj.get (timers s) (resolveLabel a)) as [v|] eqn:Ea.
    + destruct (Obj.get (timers s) b) as [w|] eqn:Eb.
      * rewrite (rename_timer_rejected _ _ _ _ _ Ea Eb). cbn [fst]. auto.
      * rewrite (rename_timer_moved _ _ _ _ Ea Eb). cbn [fst timers reads].
        split; [now left|]. intros kv Hin. apply delete_incl in Hin as [Hin _].
        apply get_None_iff in Eb as [Eb _]. rewrite (set_fresh _ _ _ Eb) in Hin.
        apply in_app_or in Hin as [Hin|[<-|[]]]; [now left|].
        right. cbn. split; [auto|]. right. now exists (resolveLabel a).
    + rewrite (rename_timer_absent _ _ _ Ea). cbn [fst]. auto.
  - rewrite switch_timer_unfold. cbv zeta.
    set (o1 := match Obj.get (timers s) (resolveLabel a) with
               | Some _ => Obj.delete (timers s) (resolveLabel a)
               | None => timers s
               end).
    assert (Hi : incl o1 (timers s)).
    { subst o1. destruct (Obj.get (timers s) (resolveLabel a));
        [|apply incl_refl]. intros kv Hin. now apply delete_incl in Hin. }
    destruct (Obj.get o1 b) as [[t|n]|] eqn:E; cbn [fst timers reads];
      (split; [now right|]); intros kv Hin; try (left; now apply Hi).
    apply get_None_iff in E as [E _]. rewrite (set_fresh _ _ _ E) in Hin.
    apply in_app_or in Hin as [Hin|[<-|[]]]; [left; now apply Hi|].
    right. cbn. auto.
Qed.

End Footprint.

(** ** Reachable states *)

Section Reachable.
Context `{Host}.

(** X1: in every state the server reaches from its start, whatever the
    calls and whether they returned or raised, each label has one entry
    and no entry sits at a name of [Object.prototype]: the handlers never
    shadow an inherited member and never assign to [__proto__]. *)
Theorem reachable_registry_wf (cs : list call) :
  Obj.wf (timers (fst (run cs initial))).
Proof. apply run_wf. exact wf_nil. Qed.

Lemma valid_call_labels (c : call) :
  valid_call c = true ->
  Forall (fun k => valid_label k = true) (call_labels c).
Proof.
  assert (Hr : forall l, valid_optional_label l = true ->
                         valid_label (resolveLabel l) = true).
  { intros [l|] Hl; [|reflexivity]. cbn in Hl.
    now rewrite (resolveLabel_valid _ Hl). }
  destruct c as [l|l|l| | |a b|a b]; cbn [valid_call call_labels]; intros Hv;
    try apply andb_prop in Hv as [Ha Hb]; repeat constructor; auto.
Qed.

Lemma ordinary_own_lookups (c : call) : ordinary_call c -> own_lookups_only c.
Proof.
  intros (Hv & Hc & Hp). apply valid_call_labels in Hv.
  unfold own_lookups_only. rewrite Forall_forall in *. intros k Hin.
  destruct (Obj.inherited k) eqn:E; [|reflexivity].
  destruct (valid_inherited k (Hv k Hin) E) as [-> | ->]; contradiction.
Qed.

Lemma run_returns_text (cs : list call) : forall s,
  Obj.wf (timers s) -> all_records (timers s) ->
  Forall ordinary_call cs ->
  Forall (fun r => exists text, r = Ok text) (snd (run cs s))
  /\ all_records (timers (fst (run cs s))).
Proof.
  induction cs as [|c cs IH]; intros s Hwf Hrec Hcs; cbn [run].
  - split; [constructor | exact Hrec].
  - inversion Hcs as [|? ? Hc Hcs']; subst.
    destruct (handle_returns_text c s Hwf Hrec (ordinary_own_lookups c Hc))
      as [[text Ht] Hrec1].
    pose proof (handle_wf c s Hwf) as Hwf1.
    destruct (handle c s) as [s1 r]. cbn [fst snd] in *. subst r.
    destruct (IH s1 Hwf1 Hrec1 Hcs') as [Hall Hrec2].
    destruct (run cs s1) as [s2 rs]. cbn [fst snd] in *.
    split; [constructor; [now exists text | exact Hall] | exact Hrec2].
Qed.

(** X2: a session of calls that pass their schemas and use neither
    "constructor" nor "__proto__" as a label never raises: every call
    returns a text message, and the registry holds timer records only. *)
Theorem ordinary_session_returns_text (cs : list call)
  (Hcs : Forall ordinary_call cs) :
  Forall (fun r => exists text, r = Ok text) (snd (run cs initial))
  /\ all_records (timers (fst (run cs initial))).
Proof. apply run_returns_text; [exact wf_nil | constructor | exact Hcs]. Qed.

Lemma readers_keep_registry (label : option string) (s : state) :
  timers (fst (current_timer label s)) = timers s
  /\ timers (fst (list_timers s)) = timers s.
Proof.
  split.
  - destruct (Obj.get (timers s) (resolveLabel label)) as [[t|n]|] eqn:E.
    + now rewrite (current_timer_running _ _ _ E).
    + now rewrite (current_timer_inherited _ _ _ E).
    + now rewrite (current_timer_absent _ _ E).
  - unfold list_timers. run_handler.
    destruct (List.length (Obj.keys (timers s)) =? 0)%nat; [reflexivity|].
    match goal with
    | |- context [mapM (list_line ?now) ?ks ?s1] =>
        pose proof (mapM_list_line_state now ks s1) as E;
        destruct (mapM (list_line now) ks s1) as [s2 [lines|ex]]
    end; cbn [fst] in *; now subst s2.
Qed.

(** X3: [current_timer] and [list_timers] are read-only: in every state,
    for every label, whether they return or raise, the registry afterwards
    is the registry before; and a [start_timer] that raises has changed
    nothing at all. *)
Theorem current_and_list_read_only (label : option string) (s : state) :
  timers (fst (current_timer label s)) = timers s
  /\ timers (fst (list_timers s)) = timers s
  /\ (forall e, snd (start_timer label s) = Throw e ->
      fst (start_timer label s) = s).
Proof.
  destruct (readers_keep_registry label s) as [Hc Hl].
  split; [exact Hc|]. split; [exact Hl|]. intros e.
  destruct (Obj.get (timers s) (resolveLabel label)) as [[t|n]|] eqn:E.
  - now rewrite (start_timer_running _ _ _ E).
  - now rewrite (start_timer_inherited _ _ _ E).
  - rewrite (start_timer_fresh _ _ E). cbn [snd].
    destruct (3 <=? _)%nat; discriminate.
Qed.

Lemma run_app_reads (cs : list call) : forall s,
  (reads s <= reads (fst (run cs s)) <= reads s + List.length cs)%nat.
Proof.
  induction cs as [|c cs IH]; intros s; cbn [run List.length]; [cbn; lia|].
  pose proof (proj1 (handle_footprint c s)) as Hr. cbv zeta in Hr.
  destruct (handle c s) as [s1 r]. cbn [fst] in Hr. specialize (IH s1).
  destruct (run cs s1) as [s2 rs]. cbn [fst] in *. lia.
Qed.

(** X4: a call reads the wall clock at most once, also when it raises;
    [rename_timer] never reads it; hence a session of n calls consumes at
    most n readings. *)
Theorem clock_read_at_most_once (c : call) (cs : list call) (s : state) :
  (reads (fst (handle c s)) = reads s
   \/ reads (fst (handle c s)) = S (reads s))
  /\ (forall a b, reads (fst (rename_timer a b s)) = reads s)
  /\ (reads s <= reads (fst (run cs s)) <= reads s + List.length cs)%nat.
Proof.
  split; [exact (proj1 (handle_footprint c s))|]. split; [|apply run_app_reads].
  intros a b. destruct (Obj.get (timers s) (resolveLabel a)) as [v|] eqn:Ea.
  - destruct (Obj.get (timers s) b) as [w|] eqn:Eb.
    + now rewrite (rename_timer_rejected _ _ _ _ _ Ea Eb).
    + now rewrite (rename_timer_moved _ _ _ _ Ea Eb).
  - now rewrite (rename_timer_absent _ _ _ Ea).
Qed.

Lemma get_record_own (o : Obj.object) (k : string) (t : Z) :
  Obj.get o k = Some (Obj.Timer t) -> In (k, Obj.Timer t) o.
Proof.
  unfold Obj.get. destruct (Obj.own o k) as [v|] eqn:E.
  - intros [= ->]. now apply own_Some_in.
  - destruct (Obj.inherited k); discriminate.
Qed.

Lemma run_stamped (cs : list call) : forall s,
  (forall kv t, In kv (timers s) -> snd kv = Obj.Timer t ->
                exists i, (i < reads s)%nat /\ t = clock i) ->
  forall kv t, In kv (timers (fst (run cs s))) -> snd kv = Obj.Timer t ->
               exists i, (i < reads (fst (run cs s)))%nat /\ t = clock i.
Proof.
  induction cs as [|c cs IH]; intros s Hs; cbn [run]; [exact Hs|].
  pose proof (handle_footprint c s) as [Hr Hf]. cbv zeta in Hr, Hf.
  destruct (handle c s) as [s1 r]. cbn [fst] in Hr, Hf.
  specialize (IH s1). destruct (run cs s1) as [s2 rs]. cbn [fst] in *.
  apply IH. intros kv t Hin Ht.
  destruct (Hf kv Hin) as [Hold | [_ [[Hnew Hr1] | [k' Hk']]]].
  - destruct (Hs kv t Hold Ht) as [i [Hi ->]]. exists i. split; [lia | reflexivity].
  - exists (reads s). split; [lia | congruence].
  - rewrite Ht in Hk'. apply get_record_own in Hk'.
    destruct (Hs _ t Hk' eq_refl) as [i [Hi ->]]. exists i.
    split; [lia | reflexivity].
Qed.

(** X5: every start time in a reachable registry is a clock reading an
    earlier call took; so if the clock never runs backwards, the elapsed
    time the next call computes for that timer is not negative. *)
Theorem start_times_are_earlier_readings
  (cs : list call) (k : string) (t : Z)
  (Hrun : Obj.own (timers (fst (run cs initial))) k = Some (Obj.Timer t)) :
  let s := fst (run cs initial) in
  (exists i, (i < reads s)%nat /\ t = clock i)
  /\ ((forall i j, (i <= j)%nat -> clock i <= clock j) ->
      0 <= clock (reads s) - t).
Proof.
  intros s.
  assert (Hi : exists i, (i < reads s)%nat /\ t = clock i).
  { apply own_Some_in in Hrun.
    refine (run_stamped cs initial _ _ t Hrun eq_refl). intros kv t' []. }
  split; [exact Hi|]. intros Hmono. destruct Hi as [i [Hlt ->]].
  specialize (Hmono i (reads s)). lia.
Qed.

Lemma run_labels_valid (cs : list call) : forall s,
  Forall (fun c => valid_call c = true) cs ->
  Forall (fun kv => valid_label (fst kv) = true) (timers s) ->
  Forall (fun kv => valid_label (fst kv) = true) (timers (fst (run cs s))).
Proof.
  induction cs as [|c cs IH]; intros s Hcs Hs; cbn [run]; [exact Hs|].
  inversion Hcs as [|? ? Hc Hcs']; subst.
  pose proof (handle_footprint c s) as [_ Hf]. cbv zeta in Hf.
  destruct (handle c s) as [s1 r]. cbn [fst] in Hf.
  specialize (IH s1 Hcs'). destruct (run cs s1) as [s2 rs]. cbn [fst] in *.
  apply IH. rewrite Forall_forall in *. intros kv Hin.
  destruct (Hf kv Hin) as [Hold | [Hl _]]; [now apply Hs|].
  pose proof (valid_call_labels c Hc) as Hv. rewrite Forall_forall in Hv.
  now apply Hv.
Qed.

(** X6: after any session of calls that pass their schemas, every label in
    the registry passes the label schema: 1 to 30 characters among a-z,
    0-9, "_" and "-" (the label "default" that stands for an omitted one
    included). *)
Theorem registry_labels_valid (cs : list call)
  (Hcs : Forall (fun c => valid_call c = true) cs) :
  Forall (fun kv => valid_label (fst kv) = true)
         (timers (fst (run cs initial))).
Proof. apply run_labels_valid; [exact Hcs | constructor]. Qed.

End Reachable.

(** ** How the handlers compose *)

Section Composition.
Context `{Host}.

Lemma delete_appended (o : Obj.object) (k : string) (v : Obj.value) :
  Obj.own o k = None -> Obj.delete (o ++ [(k, v)])%list k = o.
Proof.
  intros Hown. unfold Obj.delete. rewrite filter_app. cbn.
  rewrite String.eqb_refl. cbn. rewrite app_nil_r.
  now apply delete_absent.
Qed.

Lemma delete_length (o : Obj.object) (k : string) (v : Obj.value) :
  Obj.wf o -> Obj.own o k = Some v ->
  S (List.length (Obj.delete o k)) = List.length o.
Proof.
  intros [Hnd _]. induction o as [|[k' v'] o IH]; cbn; [discriminate|].
  inversion Hnd as [|? ? Hn Hnd']; subst.
  destruct (String.eqb_spec k' k) as [->|Hne]; cbn.
  - intros _. f_equal. change (List.length (Obj.delete o k) = List.length o).
    rewrite delete_absent; [reflexivity | now apply own_None_iff].
  - intros Hown. f_equal. now apply IH.
Qed.

(** X7: on a label that reads as not running, [start_timer],
    [current_timer] and [stop_timer] in a row all return, use three
    consecutive clock readings, report the elapsed time from the first
    reading to the second and to the third, and leave the registry exactly
    as it was before the three calls. *)
Theorem start_current_stop_round_trip (label : option string) (s : state)
  (Hfresh : Obj.get (timers s) (resolveLabel label) = None) :
  let name := resolveLabel label in
  let n := reads s in
  exists started,
    run [StartTimer label; CurrentTimer label; StopTimer label] s =
      (mkState (timers s) (S (S (S n))),
       [Ok started;
        Ok ("Timer " ++ quoted name ++ " is running." ++ nl
              ++ "Started:  " ++ toLocaleTimeString (clock n) ++ nl
              ++ "Elapsed:  " ++ formatElapsed (Js.Num (clock (S n) - clock n)));
        Ok ("Timer " ++ quoted name ++ " stopped." ++ nl
              ++ "Started:  " ++ toLocaleTimeString (clock n) ++ nl
              ++ "Stopped:  " ++ toLocaleTimeString (clock (S (S n))) ++ nl
              ++ "Elapsed:  "
              ++ formatElapsed (Js.Num (clock (S (S n)) - clock n)))]).
Proof.
  intros name n. pose proof Hfresh as Hf.
  apply get_None_iff in Hf as [Hown _]. fold name in Hown.
  pose proof (start_timer_fresh label s Hfresh) as E1. cbv zeta in E1.
  fold name n in E1.
  set (o' := (timers s ++ [(name, Obj.Timer (clock n))])%list) in *.
  assert (Hget : Obj.get o' name = Some (Obj.Timer (clock n))).
  { apply get_own. subst o'. rewrite <- (set_fresh _ _ _ Hown).
    apply own_set_eq. }
  pose proof (current_timer_running label (mkState o' (S n)) (clock n) Hget)
    as E2.
  pose proof (stop_timer_running label (mkState o' (S (S n))) (clock n) Hget)
    as E3.
  cbv zeta in E3. cbn [timers reads] in E2, E3. fold name in E2, E3.
  eexists. cbn [run handle]. rewrite E1, E2, E3.
  subst o'. rewrite (delete_appended _ _ _ Hown). reflexivity.
Qed.

(** X8: [stop_timer] on a running timer deletes that entry and no other:
    every other label keeps its entry, the registry has one entry less,
    and from then on [current_timer] and a second [stop_timer] on the
    label answer "No timer named ... is running" and change nothing. *)
Theorem stop_timer_removes_only_label
  (label : option string) (s : state) (t : Z)
  (Hwf : Obj.wf (timers s))
  (Hrun : Obj.own (timers s) (resolveLabel label) = Some (Obj.Timer t)) :
  let name := resolveLabel label in
  let s' := fst (stop_timer label s) in
  let missing := "No timer named " ++ quoted name ++ " is running." in
  Obj.own (timers s') name = None
  /\ (forall k, k <> name -> Obj.own (timers s') k = Obj.own (timers s) k)
  /\ S (List.length (timers s')) = List.length (timers s)
  /\ current_timer label s' = (s', Ok missing)
  /\ stop_timer label s' = (s', Ok missing).
Proof.
  intros name s' missing. subst s'.
  rewrite (stop_timer_running _ _ _ (get_own _ _ _ Hrun)). cbn [fst timers].
  fold name in Hrun |- *.
  pose proof (wf_own_not_inherited _ _ _ Hwf Hrun) as Hinh.
  assert (Hget : Obj.get (Obj.delete (timers s) name) name = None)
    by (apply get_absent; [apply own_delete_eq | exact Hinh]).
  split; [apply own_delete_eq|]. split; [intros k Hk; now apply own_delete_neq|].
  split; [now apply (delete_length _ _ _ Hwf Hrun)|]. split.
  - now apply current_timer_absent.
  - now apply stop_timer_absent.
Qed.

(** X9: on a registry of timer records, [stop_all_timers] returns and
    leaves the registry empty; where there was a timer it reads the clock
    once and its summary has one line per timer, each against that one
    reading; afterwards [list_timers] and [stop_all_timers] both answer
    "No timers are running." without touching the state. *)
Theorem stop_all_timers_empties (s : state)
  (Hwf : Obj.wf (timers s)) (Hrec : all_records (timers s)) :
  let s' := fst (stop_all_timers s) in
  timers s' = []
  /\ (timers s <> [] ->
      stop_all_timers s =
        (mkState [] (S (reads s)),
         Ok ("Stopped " ++ string_of_nat (List.length (timers s))
               ++ " timer(s):" ++ nl
               ++ Js.join nl (map (stopped_line (clock (reads s)) (timers s))
                                  (Obj.keys (timers s)))))
      /\ List.length (Obj.keys (timers s)) = List.length (timers s))
  /\ (timers s = [] -> stop_all_timers s = (s, Ok "No timers are running."))
  /\ list_timers s' = (s', Ok "No timers are running.")
  /\ stop_all_timers s' = (s', Ok "No timers are running.").
Proof.
  intros s'.
  assert (He : timers s' = []).
  { subst s'. destruct (empty_or_not (timers s)) as [E|E].
    - now rewrite (stop_all_timers_empty _ E).
    - now rewrite (stop_all_timers_records _ E Hwf Hrec). }
  split; [exact He|]. split; [|split; [|split]].
  - intros E. split; [exact (stop_all_timers_records _ E Hwf Hrec)|].
    apply keys_length.
  - apply stop_all_timers_empty.
  - now apply list_timers_empty.
  - now apply stop_all_timers_empty.
Qed.

(** X10: no call other than [stop_all_timers] overwrites or removes the
    entry of a label it was not asked to stop or rename away: such an
    entry is the same after the call, whether the call returned or
    raised.  In particular [start_timer] and the start half of
    [switch_timer] never restart a running timer. *)
Theorem existing_timers_kept
  (c : call) (s : state) (k : string) (v : Obj.value)
  (Hc : c <> StopAllTimers) (Hk : ~ In k (removed_labels c))
  (Hown : Obj.own (timers s) k = Some v) :
  Obj.own (timers (fst (handle c s))) k = Some v.
Proof.
  destruct c as [l|l|l| | |a b|a b]; cbn [handle removed_labels] in *.
  - destruct (Obj.get (timers s) (resolveLabel l)) as [[t|n]|] eqn:E.
    + now rewrite (start_timer_running _ _ _ E).
    + now rewrite (start_timer_inherited _ _ _ E).
    + rewrite (start_timer_fresh _ _ E). cbn [fst timers].
      apply get_None_iff in E as [E _]. rewrite <- (set_fresh _ _ _ E).
      rewrite own_set_neq; [exact Hown | congruence].
  - now rewrite (proj1 (readers_keep_registry l s)).
  - assert (Hne : resolveLabel l <> k) by (intros E; apply Hk; now left).
    destruct (Obj.get (timers s) (resolveLabel l)) as [[t|n]|] eqn:E.
    + rewrite (stop_timer_running _ _ _ E). cbn [fst timers].
      now rewrite own_delete_neq.
    + rewrite (stop_timer_inherited _ _ _ E). cbn [fst timers].
      now rewrite own_delete_neq.
    + now rewrite (stop_timer_absent _ _ E).
  - now rewrite (proj2 (readers_keep_registry None s)).
  - contradiction.
  - assert (Hne : resolveLabel a <> k) by (intros E; apply Hk; now left).
    destruct (Obj.get (timers s) (resolveLabel a)) as [w|] eqn:Ea.
    + destruct (Obj.get (timers s) b) as [w'|] eqn:Eb.
      * now rewrite (rename_timer_rejected _ _ _ _ _ Ea Eb).
      * rewrite (rename_timer_moved _ _ _ _ Ea Eb). cbn [fst timers].
        rewrite own_delete_neq by exact Hne.
        apply get_None_iff in Eb as [Eb _].
        rewrite own_set_neq; [exact Hown | congruence].
    + now rewrite (rename_timer_absent _ _ _ Ea).
  - assert (Hne : resolveLabel a <> k) by (intros E; apply Hk; now left).
    rewrite switch_timer_unfold. cbv zeta.
    set (o1 := match Obj.get (timers s) (resolveLabel a) with
               | Some _ => Obj.delete (timers s) (resolveLabel a)
               | None => timers s
               end).
    assert (H1 : Obj.own o1 k = Some v).
    { subst o1. destruct (Obj.get (timers s) (resolveLabel a));
        [now rewrite own_delete_neq | exact Hown]. }
    destruct (Obj.get o1 b) as [[t|n]|] eqn:E; cbn [fst timers];
      try exact H1.
    apply get_None_iff in E as [E _].
    rewrite own_set_neq; [exact H1 | congruence].
Qed.

(** X11: renaming a running timer to a free label and back restores the
    registry as a map: every label reads as it did before, the start time
    included; both calls return and neither reads the clock.  (Only the
    insertion order changes: the label is now the youngest entry.) *)
Theorem rename_there_and_back
  (s : state) (L1 L2 : string) (v : Obj.value)
  (Hv1 : valid_label L1 = true) (Hv2 : valid_label L2 = true)
  (Hwf : Obj.wf (timers s))
  (H1 : Obj.own (timers s) L1 = Some v)
  (H2 : Obj.get (timers s) L2 = None) :
  let r := run [RenameTimer (Some L1) L2; RenameTimer (Some L2) L1] s in
  (forall k, Obj.own (timers (fst r)) k = Obj.own (timers s) k)
  /\ timers (fst r) = (Obj.delete (timers s) L1 ++ [(L1, v)])%list
  /\ reads (fst r) = reads s
  /\ snd r =
       [Ok ("Timer renamed from " ++ quoted L1 ++ " to " ++ quoted L2 ++ ".");
        Ok ("Timer renamed from " ++ quoted L2 ++ " to " ++ quoted L1 ++ ".")].
Proof.
  intros r. pose proof (resolveLabel_valid _ Hv1) as HL1.
  pose proof (resolveLabel_valid _ Hv2) as HL2.
  pose proof (wf_own_not_inherited _ _ _ Hwf H1) as Hinh1.
  pose proof H2 as H2'. apply get_None_iff in H2' as [Hown2 Hinh2].
  assert (Hne : L1 <> L2) by congruence.
  set (o1 := Obj.delete (Obj.set (timers s) L2 v) L1).
  assert (E1 : rename_timer (Some L1) L2 s =
               (mkState o1 (reads s),
                Ok ("Timer renamed from " ++ quoted L1 ++ " to " ++ quoted L2
                      ++ "."))).
  { rewrite (rename_timer_moved (Some L1) L2 s v); rewrite ?HL1;
      [reflexivity | now apply get_own | exact H2]. }
  assert (G2 : Obj.get o1 L2 = Some v).
  { apply get_own. subst o1. rewrite own_delete_neq by exact Hne.
    apply own_set_eq. }
  assert (G1 : Obj.get o1 L1 = None).
  { apply get_absent; [apply own_delete_eq | exact Hinh1]. }
  assert (E2 : rename_timer (Some L2) L1 (mkState o1 (reads s)) =
               (mkState (Obj.delete (Obj.set o1 L1 v) L2) (reads s),
                Ok ("Timer renamed from " ++ quoted L2 ++ " to " ++ quoted L1
                      ++ "."))).
  { rewrite (rename_timer_moved (Some L2) L1 _ v); rewrite ?HL2;
      [reflexivity | exact G2 | exact G1]. }
  assert (Er : r = (mkState (Obj.delete (Obj.set o1 L1 v) L2) (reads s),
                    [Ok ("Timer renamed from " ++ quoted L1 ++ " to "
                           ++ quoted L2 ++ ".");
                     Ok ("Timer renamed from " ++ quoted L2 ++ " to "
                           ++ quoted L1 ++ ".")])).
  { subst r. cbn [run handle]. now rewrite E1, E2. }
  rewrite Er. cbn [fst snd timers reads].
  split; [|split; [|split; reflexivity]].
  - intros k. destruct (String.eqb_spec k L2) as [->|Hk2].
    + now rewrite own_delete_eq.
    + rewrite own_delete_neq by congruence.
      destruct (String.eqb_spec k L1) as [->|Hk1].
      * now rewrite own_set_eq.
      * rewrite own_set_neq by congruence. subst o1.
        rewrite own_delete_neq by congruence.
        now rewrite own_set_neq by congruence.
  - apply get_None_iff in G1 as [G1 _]. rewrite (set_fresh _ _ _ G1).
    subst o1. rewrite (set_fresh _ _ _ Hown2).
    unfold Obj.delete. rewrite !filter_app. cbn.
    destruct (String.eqb_spec L2 L1) as [E|_]; [congruence|].
    destruct (String.eqb_spec L1 L2) as [E|_]; [congruence|]. cbn.
    rewrite String.eqb_refl. cbn. rewrite app_nil_r. f_equal.
    change (Obj.delete (Obj.delete (timers s) L1) L2 = Obj.delete (timers s) L1).
    apply delete_absent. now rewrite own_delete_neq.
Qed.

(** X12: [rename_timer] never raises: in every state and for all
    arguments it returns a text message, also where the labels are names of
    [Object.prototype] or the registry holds a value without a start
    time. *)
Theorem rename_timer_never_raises
  (from : option string) (to : string) (s : state) :
  exists text, snd (rename_timer from to s) = Ok text.
Proof.
  destruct (Obj.get (timers s) (resolveLabel from)) as [v|] eqn:Ea.
  - destruct (Obj.get (timers s) to) as [w|] eqn:Eb.
    + rewrite (rename_timer_rejected _ _ _ _ _ Ea Eb). now eexists.
    + rewrite (rename_timer_moved _ _ _ _ Ea Eb). now eexists.
  - rewrite (rename_timer_absent _ _ _ Ea). now eexists.
Qed.

(** X13: [switch_timer] to a label that is already running (and is not the
    one to stop) does not restart it: the call deletes the entry of the
    stopped label, if any, leaves the target with its start time, and
    reports that start time after the stop summary. *)
Theorem switch_timer_running_target_kept
  (stop : option string) (start : string) (s : state) (t : Z)
  (Hrun : Obj.own (timers s) start = Some (Obj.Timer t))
  (Hne : start <> resolveLabel stop) :
  let stopName := resolveLabel stop in
  let o' := Obj.delete (timers s) stopName in
  Obj.own o' start = Some (Obj.Timer t)
  /\ exists summary,
       switch_timer stop start s =
         (mkState o' (S (reads s)),
          Ok (summary ++ "Timer " ++ quoted start
                ++ " is already running (started at " ++ toLocaleTimeString t
                ++ ")."))
       /\ (Obj.get (timers s) stopName = None ->
           summary = "No timer named " ++ quoted stopName ++ " was running."
                       ++ nl).
Proof.
  intros stopName o'.
  assert (Ho : Obj.own o' start = Some (Obj.Timer t))
    by (subst o'; rewrite own_delete_neq;
        [exact Hrun | intros E; apply Hne; symmetry; exact E]).
  split; [exact Ho|]. rewrite switch_timer_unfold. cbv zeta. fold stopName.
  destruct (Obj.get (timers s) stopName) as [w|] eqn:E.
  - fold o'. rewrite (get_own _ _ _ Ho). eexists. split; [reflexivity|].
    discriminate.
  - apply get_None_iff in E as [E _].
    assert (Eo : o' = timers s) by (subst o'; now apply delete_absent).
    rewrite <- Eo. rewrite (get_own _ _ _ Ho). eexists.
    split; reflexivity.
Qed.

End Composition.

(** ** More on elapsed-time formatting *)

Section Formatting.

Lemma append_assoc (a b c : string) : (a ++ b) ++ c = a ++ b ++ c.
Proof. induction a as [|x a IH]; cbn; [reflexivity | now rewrite IH]. Qed.

Lemma string_of_uint_digits (d : Decimal.uint) :
  only_digits (NilEmpty.string_of_uint d) = true.
Proof. induction d; cbn [NilEmpty.string_of_uint only_digits]; auto. Qed.

Lemma string_of_Z_digits (n : Z) :
  0 <= n -> only_digits (Js.string_of_Z n) = true.
Proof.
  destruct n as [|p|p]; intros Hn; [reflexivity| |lia].
  unfold Js.string_of_Z, Z.to_int, NilZero.string_of_int,
    NilZero.string_of_uint.
  destruct (Pos.to_uint p) eqn:E; try reflexivity;
    rewrite <- E; apply string_of_uint_digits.
Qed.

Lemma string_of_Z_inj (a b : Z) :
  Js.string_of_Z a = Js.string_of_Z b -> a = b.
Proof.
  assert (Hp : forall z, NilZero.int_of_string (Js.string_of_Z z)
                         = Some (Z.to_int z)).
  { intros z. apply NilZero.isi; destruct z; cbn; try discriminate;
      intros [= E]; now apply DecimalPos.Unsigned.to_uint_nonnil in E. }
  intros E. apply DecimalZ.to_int_inj.
  pose proof (Hp a) as Ha. rewrite E, Hp in Ha. now injection Ha.
Qed.

(** A numeral followed by a letter can be read back in one way only. *)
Lemma digits_prefix_unique (d d' : string) (c c' : ascii) (r r' : string) :
  only_digits d = true -> only_digits d' = true ->
  digit_char c = false -> digit_char c' = false ->
  d ++ String c r = d' ++ String c' r' ->
  d = d' /\ c = c' /\ r = r'.
Proof.
  revert d'. induction d as [|x d IH]; intros [|x' d'] Hd Hd' Hc Hc';
    cbn [append only_digits] in *.
  - intros [= -> ->]. auto.
  - intros [= -> _]. apply andb_prop in Hd' as [Hx _]. congruence.
  - intros [= -> _]. apply andb_prop in Hd as [Hx _]. congruence.
  - intros [= -> E]. apply andb_prop in Hd as [_ Hd].
    apply andb_prop in Hd' as [_ Hd'].
    destruct (IH d' Hd Hd' Hc Hc' E) as (-> & -> & ->). auto.
Qed.

Lemma segment_inj (n n' : Z) (c c' : ascii) (r r' : string) :
  0 <= n -> 0 <= n' -> digit_char c = false -> digit_char c' = false ->
  segment n c r = segment n' c' r' -> n = n' /\ c = c' /\ r = r'.
Proof.
  intros Hn Hn' Hc Hc' E. unfold segment in E.
  apply digits_prefix_unique in E as (E & -> & ->);
    auto using string_of_Z_digits.
  apply string_of_Z_inj in E. auto.
Qed.

(** The four shapes of a rendering of a non-negative duration. *)
Lemma formatElapsed_shape (ms : Z) :
  0 <= ms ->
  let total := ms / 1000 in
  let h := total / 3600 in
  let m := (total mod 3600) / 60 in
  let s := total mod 60 in
  0 <= h /\ 0 <= m < 60 /\ 0 <= s < 60 /\ total = 3600 * h + 60 * m + s
  /\ formatElapsed (Js.Num ms) =
       match h =? 0, m =? 0 with
       | false, false =>
           segment h "h" (String " " (segment m "m" (String " "
             (segment s "s" EmptyString))))
       | false, true =>
           segment h "h" (String " " (segment s "s" EmptyString))
       | true, false =>
           segment m "m" (String " " (segment s "s" EmptyString))
       | true, true => segment s "s" EmptyString
       end.
Proof.
  intros Hms total h m s.
  assert (Ht : 0 <= total) by (apply Z.div_pos; lia).
  assert (Hr : 0 <= total mod 3600 < 3600) by (apply Z.mod_pos_bound; lia).
  assert (Hh : 0 <= h) by (apply Z.div_pos; lia).
  assert (Hm : 0 <= m < 60).
  { subst m. split; [apply Z.div_pos; lia | apply Z.div_lt_upper_bound; lia]. }
  assert (Hs : 0 <= s < 60) by (apply Z.mod_pos_bound; lia).
  assert (Es : s = (total mod 3600) mod 60).
  { subst s. rewrite <- rem_60_of_rem_3600 by exact Ht.
    now rewrite Z.rem_mod_nonneg by lia. }
  pose proof (Z.div_mod total 3600 ltac:(lia)) as E1.
  pose proof (Z.div_mod (total mod 3600) 60 ltac:(lia)) as E2.
  fold h in E1. fold m in E2. rewrite <- Es in E2.
  repeat split; try lia.
  unfold formatElapsed. cbn [Js.floor_div Js.rem Js.gt0 Js.to_string].
  fold total. rewrite (Z.rem_mod_nonneg total 3600) by lia.
  rewrite (Z.rem_mod_nonneg total 60) by lia. fold h m s.
  unfold Js.push, Js.join, segment.
  destruct (Z.ltb_spec 0 h), (Z.eqb_spec h 0); try lia;
    destruct (Z.ltb_spec 0 m), (Z.eqb_spec m 0); try lia;
    cbn [app String.concat]; rewrite ?append_assoc; reflexivity.
Qed.

(** X14: for a negative duration (the clock went back since the timer
    started) the rendering is the seconds segment alone, with the
    remainder of the whole seconds by 60, zero or negative: hours and
    minutes are dropped whatever their size. *)
Theorem formatElapsed_negative (ms : Z) (Hneg : ms < 0) :
  formatElapsed (Js.Num ms)
    = Js.string_of_Z (Z.rem (ms / 1000) 60) ++ "s"
  /\ -60 < Z.rem (ms / 1000) 60 <= 0.
Proof.
  assert (Ht : ms / 1000 < 0) by (apply Z.div_lt_upper_bound; lia).
  pose proof (Z.rem_bound_pos_neg (ms / 1000) 3600 ltac:(lia) ltac:(lia)) as Hr.
  pose proof (Z.rem_bound_pos_neg (ms / 1000) 60 ltac:(lia) ltac:(lia)) as Hs.
  split; [|lia].
  unfold formatElapsed. cbn [Js.floor_div Js.rem Js.gt0 Js.to_string].
  assert (Hh : ms / 1000 / 3600 < 0) by (apply Z.div_lt_upper_bound; lia).
  assert (Hm : Z.rem (ms / 1000) 3600 / 60 <= 0).
  { apply Z.lt_succ_r. apply Z.div_lt_upper_bound; lia. }
  destruct (Z.ltb_spec 0 (ms / 1000 / 3600)); [lia|].
  destruct (Z.ltb_spec 0 (Z.rem (ms / 1000) 3600 / 60)); [lia|].
  reflexivity.
Qed.

(** X15: on non-negative durations the rendering determines the whole
    seconds: two durations that render alike have the same number of whole
    seconds, so no two different second counts share a rendering. *)
Theorem formatElapsed_injective (a b : Z) (Ha : 0 <= a) (Hb : 0 <= b)
  (Heq : formatElapsed (Js.Num a) = formatElapsed (Js.Num b)) :
  a / 1000 = b / 1000.
Proof.
  destruct (formatElapsed_shape a Ha) as (Hh & Hm & Hs & Ea & Fa).
  destruct (formatElapsed_shape b Hb) as (Hh' & Hm' & Hs' & Eb & Fb).
  rewrite Fa, Fb in Heq. clear Fa Fb. rewrite Ea, Eb. clear Ea Eb.
  set (h := a / 1000 / 3600) in *. set (m := (a / 1000) mod 3600 / 60) in *.
  set (s := (a / 1000) mod 60) in *.
  set (h' := b / 1000 / 3600) in *. set (m' := (b / 1000) mod 3600 / 60) in *.
  set (s' := (b / 1000) mod 60) in *.
  destruct (Z.eqb_spec h 0) as [Zh|Zh], (Z.eqb_spec m 0) as [Zm|Zm],
    (Z.eqb_spec h' 0) as [Zh'|Zh'], (Z.eqb_spec m' 0) as [Zm'|Zm'];
    repeat match goal with
      | E : segment _ _ _ = segment _ _ _ |- _ =>
          apply segment_inj in E as (? & ? & ?);
          [|lia|lia|reflexivity|reflexivity]
      | E : String _ ?x = String _ ?y |- _ =>
          assert (x = y) by (now injection E); clear E
      | E : String _ _ = EmptyString |- _ => discriminate E
      | E : EmptyString = String _ _ |- _ => discriminate E
      | E : @eq ascii _ _ |- _ => discriminate E
      end;
    lia.
Qed.

End Formatting.

(** ** Edge behaviour of [stop_timer] and [switch_timer] *)

Section Edges.
Context `{Host}.

(** X16: where a label holds a value without a start time (one that
    [rename_timer] copied from [Object.prototype]), [stop_timer] raises a
    [TypeError] after reading the clock, but has deleted the entry by then,
    and the next [current_timer] on the label returns "No timer named ...
    is running". *)
Theorem stop_timer_raises_after_delete
  (label : option string) (s : state) (n : string)
  (Hwf : Obj.wf (timers s))
  (Hbad : Obj.own (timers s) (resolveLabel label) = Some (Obj.Inherited n)) :
  let name := resolveLabel label in
  let s' := mkState (Obj.delete (timers s) name) (S (reads s)) in
  stop_timer label s = (s', Throw TypeError)
  /\ Obj.own (timers s') name = None
  /\ current_timer label s' =
       (s', Ok ("No timer named " ++ quoted name ++ " is running.")).
Proof.
  intros name s'. fold name in Hbad.
  pose proof (wf_own_not_inherited _ _ _ Hwf Hbad) as Hinh.
  split; [exact (stop_timer_inherited _ _ _ (get_own _ _ _ Hbad))|].
  split; [apply own_delete_eq|].
  apply current_timer_absent. cbn [timers]. fold name.
  apply get_absent; [apply own_delete_eq | exact Hinh].
Qed.

(** X17: [switch_timer] to a label that reads as not running always
    starts it at the one clock reading of the call and returns, whether
    the label to stop was running or not; when it was not, the message
    opens with the note "No timer named ... was running." and nothing is
    deleted. *)
Theorem switch_timer_starts_free_target
  (stop : option string) (start : string) (s : state)
  (Hfree : Obj.get (timers s) start = None) :
  let stopName := resolveLabel stop in
  let now := clock (reads s) in
  let s' := fst (switch_timer stop start s) in
  timers s' = (Obj.delete (timers s) stopName ++ [(start, Obj.Timer now)])%list
  /\ reads s' = S (reads s)
  /\ Obj.own (timers s') start = Some (Obj.Timer now)
  /\ (exists summary,
        snd (switch_timer stop start s) =
          Ok (summary ++ "Started " ++ quoted start ++ " at "
                ++ toLocaleTimeString now ++ ".")
        /\ (Obj.get (timers s) stopName = None ->
            summary = "No timer named " ++ quoted stopName ++ " was running."
                        ++ nl
            /\ Obj.delete (timers s) stopName = timers s)).
Proof.
  intros stopName now s'. subst s'.
  pose proof Hfree as Hf. apply get_None_iff in Hf as [Hown Hinh].
  assert (Hd : Obj.own (Obj.delete (timers s) stopName) start = None).
  { destruct (String.eqb_spec stopName start) as [<-|Hne];
      [apply own_delete_eq | now rewrite own_delete_neq]. }
  assert (Eo : Obj.set (Obj.delete (timers s) stopName) start (Obj.Timer now)
               = (Obj.delete (timers s) stopName ++ [(start, Obj.Timer now)])%list)
    by (now apply set_fresh).
  rewrite switch_timer_unfold. cbv zeta. fold stopName now.
  destruct (Obj.get (timers s) stopName) as [w|] eqn:E.
  - rewrite (get_absent _ _ Hd Hinh). cbn [fst snd timers reads].
    rewrite Eo. split; [reflexivity|]. split; [reflexivity|].
    split; [rewrite <- Eo; apply own_set_eq|].
    eexists. split; [reflexivity | discriminate].
  - apply get_None_iff in E as [E _].
    pose proof (delete_absent _ _ E) as Ed. rewrite Ed in Eo, Hd.
    rewrite Hfree. cbn [fst snd timers reads]. rewrite Ed, Eo.
    split; [reflexivity|]. split; [reflexivity|].
    split; [rewrite <- Eo; apply own_set_eq|].
    eexists. split; [reflexivity | auto].
Qed.

End Edges.

(** ** Concrete runs of the further properties *)

(** X2 on a session that starts "a", lists, and stops the default timer. *)
Lemma ordinary_session_returns_text_witness :
  Forall ordinary_call [StartTimer (Some "a"); ListTimers; StopTimer None]
  /\ Forall (fun r => exists text, r = Ok text)
       (snd (run (H := sample_host)
               [StartTimer (Some "a"); ListTimers; StopTimer None] initial)).
Proof.
  assert (Hcs : Forall ordinary_call
                  [StartTimer (Some "a"); ListTimers; StopTimer None])
    by concrete.
  split; [exact Hcs|].
  exact (proj1 (ordinary_session_returns_text (H := sample_host) _ Hcs)).
Defined.

(** X5 after the first [start_timer] of the process. *)
Lemma start_times_are_earlier_readings_witness :
  Obj.own (timers (fst (run (H := sample_host) [StartTimer (Some "a")] initial)))
          "a" = Some (Obj.Timer 0)
  /\ exists i, (i < 1)%nat /\ 0 = @clock sample_host i.
Proof.
  split; [reflexivity|].
  exact (proj1 (start_times_are_earlier_readings (H := sample_host)
                  [StartTimer (Some "a")] "a" 0 eq_refl)).
Defined.

(** X6 after starting the default timer and renaming it. *)
Lemma registry_labels_valid_witness :
  Forall (fun c => valid_call c = true)
         [StartTimer None; RenameTimer None "x-1"]
  /\ Forall (fun kv => valid_label (fst kv) = true)
       (timers (fst (run (H := sample_host)
                       [StartTimer None; RenameTimer None "x-1"] initial))).
Proof.
  assert (Hcs : Forall (fun c => valid_call c = true)
                       [StartTimer None; RenameTimer None "x-1"])
    by concrete.
  split; [exact Hcs|].
  exact (registry_labels_valid (H := sample_host) _ Hcs).
Defined.

(** X7 on the label "a" at process start. *)
Lemma start_current_stop_round_trip_witness :
  Obj.get (timers initial) (resolveLabel (Some "a")) = None
  /\ fst (run (H := sample_host)
            [StartTimer (Some "a"); CurrentTimer (Some "a"); StopTimer (Some "a")]
            initial)
     = mkState [] 3.
Proof.
  split; [reflexivity|].
  destruct (start_current_stop_round_trip (H := sample_host) (Some "a") initial
              eq_refl) as [started E].
  now rewrite E.
Defined.

(** X8 on the registry holding "a" and "b". *)
Lemma stop_timer_removes_only_label_witness :
  let s := mkState [("a", Obj.Timer 0); ("b", Obj.Timer 1000)] 2 in
  Obj.wf (timers s)
  /\ Obj.own (timers s) (resolveLabel (Some "a")) = Some (Obj.Timer 0)
  /\ Obj.own (timers (fst (stop_timer (H := sample_host) (Some "a") s))) "a"
     = None.
Proof.
  cbv zeta.
  assert (Hwf : Obj.wf (timers (mkState [("a", Obj.Timer 0);
                                         ("b", Obj.Timer 1000)] 2)))
    by concrete.
  split; [exact Hwf|]. split; [reflexivity|].
  exact (proj1 (stop_timer_removes_only_label (H := sample_host) (Some "a")
                  _ 0 Hwf eq_refl)).
Defined.

(** X9 on the registry holding "a" and "b". *)
Lemma stop_all_timers_empties_witness :
  let s := mkState [("a", Obj.Timer 0); ("b", Obj.Timer 1000)] 2 in
  Obj.wf (timers s) /\ all_records (timers s)
  /\ timers (fst (stop_all_timers (H := sample_host) s)) = [].
Proof.
  cbv zeta.
  assert (Hwf : Obj.wf (timers (mkState [("a", Obj.Timer 0);
                                         ("b", Obj.Timer 1000)] 2)))
    by concrete.
  assert (Hrec : all_records (timers (mkState [("a", Obj.Timer 0);
                                               ("b", Obj.Timer 1000)] 2)))
    by concrete.
  split; [exact Hwf|]. split; [exact Hrec|].
  exact (proj1 (stop_all_timers_empties (H := sample_host) _ Hwf Hrec)).
Defined.

(** X10: starting "b" leaves the running "a" as it is. *)
Lemma existing_timers_kept_witness :
  let s := mkState [("a", Obj.Timer 0)] 1 in
  StartTimer (Some "b") <> StopAllTimers
  /\ ~ In "a" (removed_labels (StartTimer (Some "b")))
  /\ Obj.own (timers s) "a" = Some (Obj.Timer 0)
  /\ Obj.own (timers (fst (handle (H := sample_host) (StartTimer (Some "b")) s)))
             "a" = Some (Obj.Timer 0).
Proof.
  cbv zeta.
  assert (Hc : StartTimer (Some "b") <> StopAllTimers) by discriminate.
  assert (Hk : ~ In "a" (removed_labels (StartTimer (Some "b"))))
    by (intros []).
  split; [exact Hc|]. split; [exact Hk|]. split; [reflexivity|].
  exact (existing_timers_kept (H := sample_host) (StartTimer (Some "b"))
           (mkState [("a", Obj.Timer 0)] 1) "a" (Obj.Timer 0) Hc Hk eq_refl).
Defined.

(** X11: "a" renamed to "b" and back. *)
Lemma rename_there_and_back_witness :
  let s := mkState [("a", Obj.Timer 0)] 1 in
  valid_label "a" = true /\ valid_label "b" = true /\ Obj.wf (timers s)
  /\ Obj.own (timers s) "a" = Some (Obj.Timer 0)
  /\ Obj.get (timers s) "b" = None
  /\ fst (run (H := sample_host)
            [RenameTimer (Some "a") "b"; RenameTimer (Some "b") "a"] s) = s.
Proof.
  cbv zeta.
  assert (Hwf : Obj.wf (timers (mkState [("a", Obj.Timer 0)] 1))) by concrete.
  do 2 (split; [reflexivity|]). split; [exact Hwf|].
  do 2 (split; [reflexivity|]).
  pose proof (rename_there_and_back (H := sample_host)
                (mkState [("a", Obj.Timer 0)] 1) "a" "b" (Obj.Timer 0)
                eq_refl eq_refl Hwf eq_refl eq_refl) as (_ & Et & Er & _).
  cbv zeta in Et, Er.
  destruct (run [RenameTimer (Some "a") "b"; RenameTimer (Some "b") "a"]
              (mkState [("a", Obj.Timer 0)] 1)) as [[o n] rs].
  cbn in Et, Er. now subst.
Defined.

(** X13: switching from "a" to the running "b". *)
Lemma switch_timer_running_target_kept_witness :
  let s := mkState [("a", Obj.Timer 0); ("b", Obj.Timer 1000)] 2 in
  Obj.own (timers s) "b" = Some (Obj.Timer 1000)
  /\ "b" <> resolveLabel (Some "a")
  /\ Obj.own (Obj.delete (timers s) (resolveLabel (Some "a"))) "b"
     = Some (Obj.Timer 1000).
Proof.
  cbv zeta.
  assert (Hne : "b" <> resolveLabel (Some "a")) by discriminate.
  split; [reflexivity|]. split; [exact Hne|].
  exact (proj1 (switch_timer_running_target_kept (H := sample_host)
                  (Some "a") "b"
                  (mkState [("a", Obj.Timer 0); ("b", Obj.Timer 1000)] 2)
                  1000 eq_refl Hne)).
Defined.

(** X14 at 61 seconds back in time. *)
Lemma formatElapsed_negative_witness :
  -61000 < 0 /\ formatElapsed (Js.Num (-61000)) = "-1s".
Proof.
  split; [lia|].
  exact (proj1 (formatElapsed_negative (-61000) ltac:(lia))).
Defined.

(** X15 on two durations within the same second. *)
Lemma formatElapsed_injective_witness :
  0 <= 1000 /\ 0 <= 1999
  /\ formatElapsed (Js.Num 1000) = formatElapsed (Js.Num 1999)
  /\ 1000 / 1000 = 1999 / 1000.
Proof.
  split; [lia|]. split; [lia|]. split; [reflexivity|].
  exact (formatElapsed_injective 1000 1999 ltac:(lia) ltac:(lia) eq_refl).
Defined.

(** X16 after "constructor" was renamed to "x". *)
Lemma stop_timer_raises_after_delete_witness :
  let s := mkState [("x", Obj.Inherited "constructor")] 0 in
  Obj.wf (timers s)
  /\ Obj.own (timers s) (resolveLabel (Some "x"))
     = Some (Obj.Inherited "constructor")
  /\ stop_timer (H := sample_host) (Some "x") s = (mkState [] 1, Throw TypeError).
Proof.
  cbv zeta.
  assert (Hwf : Obj.wf (timers (mkState [("x", Obj.Inherited "constructor")] 0)))
    by concrete.
  split; [exact Hwf|]. split; [reflexivity|].
  exact (proj1 (stop_timer_raises_after_delete (H := sample_host) (Some "x")
                  _ "constructor" Hwf eq_refl)).
Defined.

(** X17 at process start: nothing to stop, "b" is started. *)
Lemma switch_timer_starts_free_target_witness :
  Obj.get (timers initial) "b" = None
  /\ timers (fst (switch_timer (H := sample_host) None "b" initial))
     = [("b", Obj.Timer 0)].
Proof.
  split; [reflexivity|].
  exact (proj1 (switch_timer_starts_free_target (H := sample_host) None "b"
                  initial eq_refl)).
Defined.
